(** * TAVAnet: transmit-power and data-rate control for vehicular networks

    A shallow embedding of [filePakGalih/PPO.py] (rate table, environment
    model, policy/value learner, per-record optimizer), of [server.py]
    (the telemetry collector and its report) and of [client.py] (the
    simulated run), with the properties of the specification stated and
    settled against it, and further properties of the code.

    Conventions.
    - JSON / Python values are the inductive [pyval]; a decoded JSON object
      (a Python [dict] with string keys) is a [gmap string pyval].
    - Numbers of the rate table are rationals ([Q]).  The collector
      computes on Python floats: a finite float is known by its exact
      rational value, and each operation rounds to binary64 as the code
      does, so those functions evaluate to the values the code writes.
      The simulated client draws and rounds exact rationals.
    - The environment model and the learner need a cube root and a square
      root: they are embedded over the real numbers ([R]), the rounding of
      each operation, [nan] and [inf] being outside that part of the model;
      where the rounding of a literal or the dtype of an array decides what
      the code does at ordinary inputs (the comparison of line 197, the
      array of line 271), the model follows the code.
    - A Python exception is a value of [exn]; code that can raise returns
      [result A = exn + A] and is sequenced with [x <- c ;; k].
    - [print] is modelled by the list of [event]s a function emits. *)

From Stdlib Require Import ZArith QArith Qround Reals Lra Lia String List.
From Stdlib Require Import DecimalString.
From Stdlib Require Lqa.
From stdpp Require Import base gmap strings list.

Set Warnings "-register-all".
Open Scope string_scope.
Open Scope list_scope.

(** ** Python values, exceptions, printed lines *)

Module Py.

(** The floats that are not numbers of [Q]: what [json.loads] makes of
    [Infinity], [-Infinity] and [NaN], and what an overflowing float
    operation returns. *)
Inductive special : Type :=
| PosInf
| NegInf
| NaN.

Inductive pyval : Type :=
| VNone
| VBool (b : bool)
| VInt (z : Z)
| VFloat (q : Q)
| VSpecial (x : special)
| VStr (s : string)
| VList (l : list pyval).

(** A decoded JSON object. *)
Abbreviation json_object := (gmap string pyval).

Inductive exn : Type :=
| KeyError (key : string)
| IndexError (msg : string)
| TypeError (msg : string)
| ValueError (msg : string)
| AttributeError (msg : string)
| NameError (name : string)
| OverflowError (msg : string)
| FloatingPointError (msg : string)
| OutOfFuel.

(** Two constructors are not exceptions Python raises here.
    [FloatingPointError] marks a division by zero, a mean of nothing or
    the cast of a float beyond int64: numpy warns and goes on with [inf],
    [nan] or an unspecified integer, which the numbers of the model cannot
    carry, so the model stops there.  [OutOfFuel] marks a [while] loop that
    did not end within the model's loop bound. *)

(** The exceptions Python raises. *)
Definition python_exception (e : exn) : Prop :=
  match e with
  | FloatingPointError _ | OutOfFuel => False
  | _ => True
  end.

Definition result (A : Type) : Type := (exn + A)%type.

Definition ret {A} (a : A) : result A := inr a.
Definition raise {A} (e : exn) : result A := inl e.
Definition bind {A B} (c : result A) (k : A -> result B) : result B :=
  match c with
  | inl e => inl e
  | inr a => k a
  end.

Notation "x <- c ;; k" := (bind c (fun x => k))
  (at level 100, c at next level, right associativity).

(** Code that also changes an object: the object after the call comes
    with the outcome, so what was assigned before an exception stays. *)
Definition M (S A : Type) : Type := S -> S * result A.

Definition mret {S A} (a : A) : M S A := fun s => (s, inr a).
Definition mraise {S A} (e : exn) : M S A := fun s => (s, inl e).
Definition mlift {S A} (f : S -> result A) : M S A := fun s => (s, f s).
Definition mbind {S A B} (c : M S A) (k : A -> M S B) : M S B :=
  fun s => match c s with
           | (s', inl e) => (s', inl e)
           | (s', inr a) => k a s'
           end.

Notation "x <~ c ;; k" := (mbind c (fun x => k))
  (at level 100, c at next level, right associativity).

(** The numeric value of a Python number ([bool] is a subtype of [int]);
    an infinity or a [nan] has none. *)
Definition num_of (v : pyval) : option Q :=
  match v with
  | VBool b => Some (if b then 1 else 0)%Q
  | VInt z => Some (inject_Z z)
  | VFloat q => Some q
  | _ => None
  end.

(** Python's [==] on JSON values: numbers compare by value across [bool],
    [int] and [float]; an infinity equals itself only and [nan] equals
    nothing; strings and lists compare structurally; values of different
    kinds are unequal. *)
Fixpoint py_eq (a b : pyval) : bool :=
  match a, b with
  | VNone, VNone => true
  | VStr s, VStr t => String.eqb s t
  | VList l1, VList l2 =>
      (fix go (l1 l2 : list pyval) : bool :=
         match l1, l2 with
         | [], [] => true
         | x :: xs, y :: ys => py_eq x y && go xs ys
         | _, _ => false
         end) l1 l2
  | (VBool _ | VInt _ | VFloat _), (VBool _ | VInt _ | VFloat _) =>
      match num_of a, num_of b with
      | Some x, Some y => Qeq_bool x y
      | _, _ => false
      end
  | VSpecial PosInf, VSpecial PosInf => true
  | VSpecial NegInf, VSpecial NegInf => true
  | _, _ => false
  end.

(** [f] on every element, stopping at the first exception. *)
Fixpoint mapM {A B} (f : A -> result B) (l : list A) : result (list B) :=
  match l with
  | [] => ret []
  | x :: xs => y <- f x ;; ys <- mapM f xs ;; ret (y :: ys)
  end.

(** [t[i]] for a tuple or list [t] and a literal index [i >= 0]. *)
Definition item (t : list pyval) (i : nat) : result pyval :=
  match t !! i with
  | Some v => ret v
  | None => raise (IndexError "tuple index out of range")
  end.

(** [l[i]] for a list [l] and an arbitrary value [i]: integers (and
    booleans) index, negative ones from the end; anything else is a
    [TypeError]. *)
Definition subscript {A} (l : list A) (i : pyval) : result A :=
  let at_ (z : Z) : result A :=
    let n := Z.of_nat (length l) in
    let k := if (z <? 0)%Z then (z + n)%Z else z in
    if ((0 <=? k)%Z && (k <? n)%Z)%bool then
      match l !! Z.to_nat k with
      | Some x => ret x
      | None => raise (IndexError "list index out of range")
      end
    else raise (IndexError "list index out of range") in
  match i with
  | VInt z => at_ z
  | VBool b => at_ (if b then 1 else 0)%Z
  | _ => raise (TypeError "list indices must be integers or slices")
  end.

(** [d.get(k, default)] *)
Definition get (d : json_object) (k : string) (default : pyval) : pyval :=
  match d !! k with
  | Some v => v
  | None => default
  end.

(** [d[k]] *)
Definition getitem (d : json_object) (k : string) : result pyval :=
  match d !! k with
  | Some v => ret v
  | None => raise (KeyError k)
  end.

End Py.

Import Py.

(** ** Rate Table ([mcs_tables], [get_modulation_and_datarate]) *)

Module RateTable.

(** What [print] writes in the lookup. *)
Inductive event : Type :=
| NoMcsTable (ieee_standard : pyval).

Definition legacy (m : string) (r : Q) : list pyval := [VStr m; VFloat r].
Definition mcs2 (i : Z) (m : string) (r20 r40 : Q) : list pyval :=
  [VInt i; VStr m; VFloat r20; VFloat r40].
Definition mcs4 (i : Z) (m : string) (r20 r40 r80 r160 : Q) : list pyval :=
  [VInt i; VStr m; VFloat r20; VFloat r40; VFloat r80; VFloat r160].

Definition table_a : list (list pyval) :=
  [ legacy "BPSK" 6.0; legacy "BPSK" 9.0;
    legacy "QPSK" 12.0; legacy "QPSK" 18.0;
    legacy "16-QAM" 24.0; legacy "16-QAM" 36.0;
    legacy "64-QAM" 48.0; legacy "64-QAM" 54.0 ].

Definition table_b : list (list pyval) :=
  [ legacy "DSSS" 1.0; legacy "DSSS" 2.0;
    legacy "CCK" 5.5; legacy "CCK" 11.0 ].

Definition table_g : list (list pyval) :=
  [ legacy "BPSK" 6.0; legacy "BPSK" 9.0;
    legacy "QPSK" 12.0; legacy "QPSK" 18.0;
    legacy "16-QAM" 24.0; legacy "16-QAM" 36.0;
    legacy "64-QAM" 48.0; legacy "64-QAM" 54.0 ].

Definition table_n : list (list pyval) :=
  [ mcs2 0 "BPSK" 6.5 13.5;
    mcs2 1 "QPSK" 13.0 27.0;
    mcs2 2 "QPSK" 19.5 40.5;
    mcs2 3 "16-QAM" 26.0 54.0;
    mcs2 4 "16-QAM" 39.0 81.0;
    mcs2 5 "64-QAM" 52.0 108.0;
    mcs2 6 "64-QAM" 58.5 121.5;
    mcs2 7 "64-QAM" 65.0 135.0 ].

Definition table_ac : list (list pyval) :=
  [ mcs4 0 "BPSK" 6.5 13.5 29.3 58.5;
    mcs4 1 "QPSK" 13.0 27.0 58.5 117.0;
    mcs4 2 "QPSK" 19.5 40.5 87.8 175.5;
    mcs4 3 "16-QAM" 26.0 54.0 117.0 234.0;
    mcs4 4 "16-QAM" 39.0 81.0 175.5 351.0;
    mcs4 5 "64-QAM" 52.0 108.0 234.0 468.0;
    mcs4 6 "64-QAM" 58.5 121.5 263.3 526.5;
    mcs4 7 "64-QAM" 65.0 135.0 292.5 585.0;
    mcs4 8 "256-QAM" 78.0 162.0 351.0 702.0;
    [VInt 9; VStr "256-QAM"; VNone; VNone; VFloat 390.0; VFloat 780.0] ].

Definition table_ax : list (list pyval) :=
  [ mcs4 0 "BPSK" 7.3 15.0 30.0 60.0;
    mcs4 1 "QPSK" 14.6 30.0 60.0 120.0;
    mcs4 2 "QPSK" 21.9 45.0 90.0 180.0;
    mcs4 3 "16-QAM" 29.2 60.0 120.0 240.0;
    mcs4 4 "16-QAM" 43.9 90.0 180.0 360.0;
    mcs4 5 "64-QAM" 58.5 120.0 240.0 480.0;
    mcs4 6 "64-QAM" 65.8 135.0 270.0 540.0;
    mcs4 7 "64-QAM" 73.1 150.0 300.0 600.0;
    mcs4 8 "256-QAM" 87.8 180.0 360.0 720.0;
    mcs4 9 "256-QAM" 97.5 200.0 400.0 800.0 ].

Definition table_p : list (list pyval) :=
  [ legacy "BPSK" 3.0; legacy "BPSK" 6.0;
    legacy "QPSK" 12.0; legacy "QPSK" 18.0;
    legacy "16-QAM" 24.0; legacy "16-QAM" 36.0;
    legacy "64-QAM" 48.0; legacy "64-QAM" 54.0 ].

Definition table_bd : list (list pyval) :=
  [ mcs2 0 "BPSK" 7.0 14.0;
    mcs2 1 "QPSK" 14.0 28.0;
    mcs2 2 "QPSK" 21.0 42.0;
    mcs2 3 "16-QAM" 28.0 56.0;
    mcs2 4 "16-QAM" 42.0 84.0;
    mcs2 5 "64-QAM" 56.0 112.0;
    mcs2 6 "64-QAM" 63.0 126.0;
    mcs2 7 "64-QAM" 70.0 140.0;
    mcs2 8 "256-QAM" 84.0 168.0;
    mcs2 9 "256-QAM" 105.0 210.0 ].

(** The module-level dict [mcs_tables], as an association list in source
    order and as the map it denotes. *)
Definition mcs_tables_items : list (string * list (list pyval)) :=
  [ ("802.11a", table_a); ("802.11b", table_b); ("802.11g", table_g);
    ("802.11n", table_n); ("802.11ac", table_ac); ("802.11ax", table_ax);
    ("802.11p", table_p); ("802.11bd", table_bd) ].

Definition mcs_tables : gmap string (list (list pyval)) :=
  list_to_map mcs_tables_items.

(** The list literal of the [in] test on line 110. *)
Definition bandwidth_adaptive : list string :=
  ["802.11n"; "802.11ac"; "802.11ax"; "802.11bd"].

(** [mcs_tables.get(ieee_standard)]: a string is looked up; a list is
    unhashable; any other value is simply not a key. *)
Definition tables_get (ieee_standard : pyval)
  : result (option (list (list pyval))) :=
  match ieee_standard with
  | VStr s => ret (mcs_tables !! s)
  | VList _ => raise (TypeError "unhashable type: 'list'")
  | _ => ret None
  end.

(** The [for entry in mcs_table] loop of lines 111-115, started with
    [modulation = datarate = None]. *)
Fixpoint scan (mcs_table : list (list pyval)) (mcs_index bandwidth : pyval)
  : result (pyval * pyval) :=
  match mcs_table with
  | [] => ret (VNone, VNone)
  | entry :: rest =>
      e0 <- item entry 0 ;;
      if py_eq e0 mcs_index then
        modulation <- item entry 1 ;;
        datarate <- (if py_eq bandwidth (VInt 20) then item entry 2
                     else item entry 3) ;;
        ret (modulation, datarate)
      else scan rest mcs_index bandwidth
  end.

(** [modulation, datarate = mcs_table[mcs_index]] *)
Definition unpack2 (t : list pyval) : result (pyval * pyval) :=
  match t with
  | [m; d] => ret (m, d)
  | _ => raise (ValueError "wrong number of values to unpack")
  end.

Definition in_adaptive (ieee_standard : pyval) : bool :=
  existsb (fun s => py_eq ieee_standard (VStr s)) bandwidth_adaptive.

(** [get_modulation_and_datarate]: the printed lines and the outcome. *)
Definition get_modulation_and_datarate
    (ieee_standard mcs_index bandwidth : pyval)
  : list event * result (pyval * pyval) :=
  match tables_get ieee_standard with
  | inl e => ([], raise e)
  | inr None | inr (Some []) =>
      ([NoMcsTable ieee_standard], ret (VStr "N/A", VStr "N/A"))
  | inr (Some mcs_table) =>
      if in_adaptive ieee_standard then
        ([], scan mcs_table mcs_index bandwidth)
      else
        ([], entry <- subscript mcs_table mcs_index ;; unpack2 entry)
  end.

(** The spec's name for it, on a standard given as a string. *)
Definition lookup (standard : string) (mcs_index bandwidth : pyval) :=
  get_modulation_and_datarate (VStr standard) mcs_index bandwidth.

(** The bandwidth value exactly 20 ([20], [20.0]). *)
Definition is_20 (bandwidth : pyval) : Prop :=
  exists q, num_of bandwidth = Some q /\ (q == 20)%Q.

(** What is neither an [int] nor a [bool]. *)
Definition not_an_integer (v : pyval) : Prop :=
  match v with
  | VInt _ | VBool _ => False
  | _ => True
  end.

(** No entry of the table has [entry[0] == mcs_index]. *)
Definition matches_no_entry (mcs_table : list (list pyval)) (mcs_index : pyval)
  : Prop :=
  Forall (fun entry => forall e0, entry !! 0%nat = Some e0 ->
                                  py_eq e0 mcs_index = false) mcs_table.

End RateTable.

(** ** Environment Model ([VANETEnv]) *)

Module Env.
Local Open Scope R_scope.

(** Module-level [beta = 3]. *)
Definition beta : R := 3.

(** The floats that the literals [0.6], [0.025] and [0.1] denote, by
    their exact values: they differ from the decimals by less than 1e-16,
    which decides the comparison of line 197 at inputs such as 0.625. *)
Definition float_0_6 : R := 5404319552844595 / 9007199254740992.
Definition float_0_025 : R := 3602879701896397 / 144115188075855872.
Definition float_0_1 : R := 3602879701896397 / 36028797018963968.

(** An element of a numpy array, or a value unpacked from one: a number,
    or a non-numeric object (string or object dtype) on which arithmetic
    raises. *)
Inductive scalar : Type :=
| Num (x : R)
| Obj (v : pyval).

(** One-dimensional arrays. *)
Abbreviation ndarray := (list scalar).

(** [np.array([a, b])] on two JSON scalars: a numeric array when both are
    numbers, otherwise an array whose elements are not numbers.  Two kinds
    of values are kept as objects although numpy does otherwise with them:
    a list, of which numpy makes an array of higher rank or, when the
    shapes disagree, an error; and an infinity or [nan], which is a float
    for numpy and has no real number here.  [json_scalar] excludes
    them. *)
Definition np_array2 (a b : pyval) : ndarray :=
  match num_of a, num_of b with
  | Some x, Some y => [Num (Q2R x); Num (Q2R y)]
  | _, _ => [Obj a; Obj b]
  end.

(** The JSON values [np_array2] treats as numpy does. *)
Definition json_scalar (v : pyval) : Prop :=
  match v with
  | VList _ | VSpecial _ => False
  | _ => True
  end.

(** An array whose elements are numbers or such values. *)
Definition of_json_scalars (a : ndarray) : Prop :=
  Forall (fun s => match s with Num _ => True | Obj v => json_scalar v end) a.

(** The operand of an arithmetic operation. *)
Definition as_num (s : scalar) : result R :=
  match s with
  | Num x => ret x
  | Obj _ => raise (TypeError "unsupported operand type(s)")
  end.

(** What goes between the brackets of [a[...]]. *)
Inductive index : Type :=
| IdxInt (z : Z)
| IdxStr (key : string).

Definition string_index_msg : string :=
  "only integers, slices (`:`), ellipsis (`...`), numpy.newaxis (`None`) and integer or boolean arrays are valid indices".

(** [a[i]] on a one-dimensional array: an integer selects an element
    (negative ones from the end), a string is not a valid index. *)
Definition nd_getitem (a : ndarray) (i : index) : result scalar :=
  match i with
  | IdxInt z =>
      let n := Z.of_nat (length a) in
      let k := if (z <? 0)%Z then (z + n)%Z else z in
      if ((0 <=? k)%Z && (k <? n)%Z)%bool then
        match a !! Z.to_nat k with
        | Some x => ret x
        | None => raise (IndexError "index is out of bounds")
        end
      else raise (IndexError "index is out of bounds")
  | IdxStr _ => raise (IndexError string_index_msg)
  end.

(** [np.clip(x, lo, hi)] *)
Definition clip (x lo hi : R) : R := Rmin (Rmax x lo) hi.

(** [x ** y] on floats.  For [x > 0] this is the real power.  numpy gives
    [0.0] for [x = 0] and [y > 0]; for [x < 0] and a fractional [y] it
    gives [nan], which has no real value: the model returns [0] there
    too. *)
Definition np_power (x y : R) : R :=
  if Rlt_dec 0 x then Rpower x y else 0.

(** The object: the attributes [__init__] sets (those no method reads are
    left out) and the four reward weights, which no code of the repository
    ever assigns ([None]: the attribute does not exist).  A [Box] space is
    the list of its (low, high) bounds, one pair per dimension. *)
Record VANETEnv : Type := {
  action_space : list (R * R);
  observation_space : list (R * R);
  car_logs : list json_object;
  current_state : option ndarray;
  CBR_target : R;
  ieee_standard : pyval;
  bandwidth : pyval;
  pi_b : option R;
  pi_p_prime : option R;
  pi_p2 : option R;
  kb : option R
}.

Definition init (car_logs : list json_object) (ieee_standard bandwidth : pyval)
  : VANETEnv :=
  {| action_space := [(-3, 3)];
     observation_space := [(1, 30); (0.001, 0.8)];
     car_logs := car_logs;
     current_state := None;
     CBR_target := float_0_6;
     ieee_standard := ieee_standard;
     bandwidth := bandwidth;
     pi_b := None; pi_p_prime := None; pi_p2 := None; kb := None |}.

Definition set_current_state (self : VANETEnv) (s : ndarray) : VANETEnv :=
  {| action_space := action_space self;
     observation_space := observation_space self;
     car_logs := car_logs self;
     current_state := Some s;
     CBR_target := CBR_target self;
     ieee_standard := ieee_standard self;
     bandwidth := bandwidth self;
     pi_b := pi_b self; pi_p_prime := pi_p_prime self;
     pi_p2 := pi_p2 self; kb := kb self |}.

(** The environment with the four reward weights assigned. *)
Definition with_weights (self : VANETEnv) (b p' p2 k : R) : VANETEnv :=
  {| action_space := action_space self;
     observation_space := observation_space self;
     car_logs := car_logs self;
     current_state := current_state self;
     CBR_target := CBR_target self;
     ieee_standard := ieee_standard self;
     bandwidth := bandwidth self;
     pi_b := Some b; pi_p_prime := Some p'; pi_p2 := Some p2; kb := Some k |}.

(** [self.name] *)
Definition attr (a : option R) (name : string) : result R :=
  match a with
  | Some x => ret x
  | None =>
      raise (AttributeError
               ("'VANETEnv' object has no attribute '" ++ name ++ "'")%string)
  end.

(** [random.choice(seq)], the draw being [pick]. *)
Definition random_choice {A} (seq : list A) (pick : nat) : result A :=
  match seq !! (pick mod length seq)%nat with
  | Some x => ret x
  | None => raise (IndexError "Cannot choose from an empty sequence")
  end.

(** [reset]: the object after the call, and what the call returns or
    raises. *)
Definition reset (pick : nat) (self : VANETEnv)
  : VANETEnv * result ndarray :=
  match
    log <- random_choice (car_logs self) pick ;;
    p <- getitem log "power_transmission" ;;
    rho <- getitem log "vehicle_density" ;;
    ret (np_array2 p rho)
  with
  | inl e => (self, inl e)
  | inr s => (set_current_state self s, inr s)
  end.

(** The local functions [H] and [g] of [reward_function]. *)
Definition H (x : R) : R := if Rge_dec x 0 then 1 else 0.

Definition g (x k : R) : R := x * (H x - 2 * H (x - k)).

(** The three cases by which the specification describes [g], read in the
    order [x < 0], [0 <= x < k], [x >= k]; compared with [g] below. *)
Definition g_spec (x k : R) : R :=
  if Rlt_dec x 0 then 0 else if Rlt_dec x k then x else - x.

(** The cases of [g] as the code computes them. *)
Definition g_cases (x k : R) : R :=
  if Rlt_dec x 0 then (if Rlt_dec x k then 0 else -2 * x)
  else if Rlt_dec x k then x else - x.

(** [reward_function].  The test of line 197 is on floats; here it is on
    their exact values, the literals being the floats they denote.  The
    two tests decide alike on every float [cbr]: between 0.3 and 1.2 the
    difference [cbr - 0.6] is itself a float (the operands are within a
    factor of 2), so the code computes it without rounding; outside, the
    difference is above 0.29 with or without rounding. *)
Definition reward_function (self : VANETEnv) (cbr p p_prime : R) : result R :=
  b <- attr (pi_b self) "pi_b" ;;
  k <- attr (kb self) "kb" ;;
  w' <- attr (pi_p_prime self) "pi_p_prime" ;;
  w2 <- attr (pi_p2 self) "pi_p2" ;;
  let reward := b * g cbr k - w' * Rabs (p - p_prime) - w2 * g p_prime 20 in
  if Rle_dec (Rabs (cbr - CBR_target self)) float_0_025
  then ret (reward + 10)
  else ret (reward - float_0_1).

(** [p, rho = self.current_state] *)
Definition unpack_state (s : option ndarray) : result (scalar * scalar) :=
  match s with
  | None => raise (TypeError "cannot unpack non-iterable NoneType object")
  | Some [p; rho] => ret (p, rho)
  | Some _ => raise (ValueError "wrong number of values to unpack")
  end.

(** [step]: the object after the call (the assignment of line 174 stays
    when a later line raises), and what the call returns or raises.  An
    action is the array [select_action] returns. *)
Definition step (action : list R) (self : VANETEnv)
  : VANETEnv * result (ndarray * R * bool) :=
  match
    s <- unpack_state (current_state self) ;;
    let '(p, rho) := s in
    delta_p <- match action with
               | d :: _ => ret d
               | [] => raise (IndexError "index 0 is out of bounds")
               end ;;
    p <- as_num p ;;
    let new_p := clip (p + delta_p) 1 30 in
    rho <- as_num rho ;;
    let rho := rho * np_power (p / new_p) (1 / beta) in
    ret (p, new_p, rho)
  with
  | inl e => (self, inl e)
  | inr (p, new_p, rho) =>
      let state := [Num new_p; Num rho] in
      let self := set_current_state self state in
      (self,
       cbr <- nd_getitem state (IdxStr "cbr") ;;
       cbr <- as_num cbr ;;
       reward <- reward_function self cbr new_p p ;;
       let done := true in
       ret (state, reward, done))
  end.

(** An environment as [__init__] builds it, put in state (15, 0.5). *)
Definition env_15 : VANETEnv :=
  set_current_state (init [] (VStr "802.11p") (VInt 20)) [Num 15; Num 0.5].

End Env.

(** ** Policy/Value Learner ([PPOAgent]) *)

Module Learner.
Import Env.
Local Open Scope R_scope.

(** What the learner and the optimizer print, and what they ask of the
    network emulator. *)
Inductive event : Type :=
| PrintNoMcsTable (ieee_standard : pyval)
| PrintEpisode (episode : nat) (total_reward : R)
| PrintAdjusted (car_id : pyval) (power : R) (data_rate : pyval)
| SetTxPower (car_id : pyval) (power : R)
| IwSetBitrate (interface : string) (datarate : pyval)
| PrintDataRateSet (interface : string) (datarate : pyval)
| PrintApplied (car_id : pyval) (power : R) (data_rate : pyval)
| PrintErrorApplying (car_id : pyval) (e : exn)
| PrintErrorHandling (e : exn)
| SocketClose.

(** The object.  [policy_weights] is the single matrix of the Python list
    [self.policy_weights], of shape (observation dimension, 1), as the list
    of its rows' only entries.  [env] is the very object the caller
    built: what the learner does to it, the caller sees. *)
Record PPOAgent : Type := {
  env : VANETEnv;
  gamma : R;
  clip_ratio : R;
  policy_weights : list R;
  value_weights : list R;
  policy_lr : R;
  value_lr : R
}.

(** [__init__] with its default arguments; [randn] is the stream of
    standard normal draws behind the two [np.random.randn] calls. *)
Definition init (randn : nat -> R) (env : VANETEnv) : PPOAgent :=
  let d := length (observation_space env) in
  {| env := env;
     gamma := 0.99;
     clip_ratio := 0.2;
     policy_weights := map (fun i => randn i / sqrt (INR d)) (seq 0 d);
     value_weights := map (fun i => randn i / sqrt (INR d)) (seq d d);
     policy_lr := 0.0003;
     value_lr := 0.0003 |}.

Definition set_env (self : PPOAgent) (e : VANETEnv) : PPOAgent :=
  {| env := e; gamma := gamma self; clip_ratio := clip_ratio self;
     policy_weights := policy_weights self;
     value_weights := value_weights self;
     policy_lr := policy_lr self; value_lr := value_lr self |}.

Definition set_policy_weights (self : PPOAgent) (w : list R) : PPOAgent :=
  {| env := env self; gamma := gamma self; clip_ratio := clip_ratio self;
     policy_weights := w;
     value_weights := value_weights self;
     policy_lr := policy_lr self; value_lr := value_lr self |}.

Definition set_value_weights (self : PPOAgent) (w : list R) : PPOAgent :=
  {| env := env self; gamma := gamma self; clip_ratio := clip_ratio self;
     policy_weights := policy_weights self;
     value_weights := w;
     policy_lr := policy_lr self; value_lr := value_lr self |}.

(** The numbers of a numeric array. *)
Definition as_nums (a : ndarray) : result (list R) := mapM as_num a.

Definition sum (xs : list R) : R := fold_right Rplus 0 xs.

(** [np.dot] of two vectors. *)
Definition dot (x w : list R) : result R :=
  if Nat.eqb (length x) (length w)
  then ret (sum (zip_with Rmult x w))
  else raise (ValueError "shapes not aligned").

(** [select_action]; [z] is the standard normal draw behind
    [np.random.normal(mean_action, self.clip_ratio)]. *)
Definition select_action (z : R) (state : option ndarray) (self : PPOAgent)
  : result (list R) :=
  s <- match state with
       | Some s => ret s
       | None => raise (TypeError "unsupported operand type(s): 'NoneType'")
       end ;;
  x <- as_nums s ;;
  mean_action <- dot x (policy_weights self) ;;
  let action := [mean_action + clip_ratio self * z] in
  ret (zip_with (fun a b => clip a (fst b) (snd b))
         action (action_space (env self))).

(** *** [update] *)

(** [np.array(rewards)]: an array of dtype int64 when the list holds
    Python integers only, each within int64, and of dtype float64 when it
    holds floats, as the rewards [step] returns are, or integers and
    floats.  (Lists of booleans only, and lists holding anything that is
    no number, are not covered.) *)
Inductive rewards_array : Type :=
| IntRewards (l : list Z)
| FloatRewards (l : list R).

(** The numbers the array holds. *)
Definition rewards_values (rewards : rewards_array) : list R :=
  match rewards with
  | IntRewards l => map IZR l
  | FloatRewards l => l
  end.

(** Lines 272-276: the scan over [reversed(range(len(rewards)))], which
    carries the float [running_add] from the last index down;
    [discounted_rewards] is the value of [running_add] at each index. *)
Definition discount_step (gamma : R) (acc : R * list R) (r : R)
  : R * list R :=
  let running_add := fst acc * gamma + r in
  (running_add, running_add :: snd acc).

Definition discounted_rewards (gamma : R) (rewards : list R) : list R :=
  snd (fold_left (discount_step gamma) (rev rewards) (0, [])).

(** The integer part of a float: the cast of C, towards zero. *)
Definition truncate (x : R) : Z :=
  if Rle_dec 0 x then Int_part x else (- Int_part (- x))%Z.

Definition in_int64 (z : Z) : bool :=
  ((- 2 ^ 63 <=? z) && (z <? 2 ^ 63))%Z.

(** Line 276, [discounted_rewards[t] = running_add].  The array written
    to is [np.zeros_like(rewards)], which has the dtype of [rewards]: a
    float64 array takes [running_add] as it is, an int64 array takes its
    integer part. *)
Definition stored (rewards : rewards_array) (running_add : R) : result R :=
  match rewards with
  | FloatRewards _ => ret running_add
  | IntRewards _ =>
      let z := truncate running_add in
      if in_int64 z then ret (IZR z)
      else raise (FloatingPointError "invalid value encountered in cast")
  end.

(** The array [discounted_rewards] when the loop is left. *)
Definition stored_returns (gamma : R) (rewards : rewards_array)
  : result (list R) :=
  mapM (stored rewards) (discounted_rewards gamma (rewards_values rewards)).

(** [np.mean]; of an empty array it is [nan]. *)
Definition np_mean (xs : list R) : result R :=
  match xs with
  | [] => raise (FloatingPointError "mean of empty slice")
  | _ => ret (sum xs / INR (length xs))
  end.

(** [np.std]: the population standard deviation. *)
Definition np_std (xs : list R) : result R :=
  m <- np_mean xs ;;
  v <- np_mean (map (fun x => (x - m) * (x - m)) xs) ;;
  ret (sqrt v).

(** Float division; by zero it is [inf] or [nan]. *)
Definition np_div (x y : R) : result R :=
  if Req_dec_T y 0 then raise (FloatingPointError "divide by zero")
  else ret (x / y).

(** Line 279. *)
Definition normalize (xs : list R) : result (list R) :=
  m <- np_mean xs ;;
  sd <- np_std xs ;;
  mapM (fun x => np_div (x - m) (sd + 1e-10)) xs.

(** Elementwise difference of two arrays of one length.  (numpy also
    broadcasts an array of length 1 against a longer one; [train] never
    passes such a batch.) *)
Definition np_sub (xs ys : list R) : result (list R) :=
  if Nat.eqb (length xs) (length ys)
  then ret (zip_with Rminus xs ys)
  else raise (ValueError "operands could not be broadcast together").

(** [a[i]] for the loop index [i]. *)
Definition at_index {A} (a : list A) (i : nat) : result A :=
  match a !! i with
  | Some x => ret x
  | None => raise (IndexError "index is out of bounds")
  end.

(** Lines 286-288, from index [i] on. *)
Fixpoint policy_loop (i : nat) (states : list (list R))
    (advantages : list R) (actions : list (list R)) (self : PPOAgent)
  : PPOAgent * result unit :=
  match states with
  | [] => (self, ret tt)
  | state :: rest =>
      match
        adv <- at_index advantages i ;;
        action <- at_index actions i ;;
        a <- match action with
             | [a] => ret a
             | _ => raise (ValueError "non-broadcastable output operand")
             end ;;
        mean_action <- dot state (policy_weights self) ;;
        let grad := adv * (a - mean_action) in
        ret (zip_with (fun w x => w + policy_lr self * (x * grad))
               (policy_weights self) state)
      with
      | inl e => (self, inl e)
      | inr w =>
          policy_loop (S i) rest advantages actions (set_policy_weights self w)
      end
  end.

(** Lines 291-293, from index [i] on. *)
Fixpoint value_loop (i : nat) (states : list (list R))
    (advantages : list R) (self : PPOAgent) : PPOAgent * result unit :=
  match states with
  | [] => (self, ret tt)
  | state :: rest =>
      match
        grad_value <- at_index advantages i ;;
        if Nat.eqb (length (value_weights self)) (length state)
        then ret (zip_with (fun w x => w + value_lr self * grad_value * x)
                    (value_weights self) state)
        else raise (ValueError "operands could not be broadcast together")
      with
      | inl e => (self, inl e)
      | inr w =>
          value_loop (S i) rest advantages (set_value_weights self w)
      end
  end.

(** [update]: the object after the call, and whether the call returned.
    [next_states] is converted to an array and not read again. *)
Definition update (states : list ndarray) (actions : list (list R))
    (rewards : rewards_array) (next_states : list ndarray) (self : PPOAgent)
  : PPOAgent * result unit :=
  match
    states <- mapM as_nums states ;;
    G <- stored_returns (gamma self) rewards ;;
    discounted <- normalize G ;;
    values <- mapM (fun s => dot s (value_weights self)) states ;;
    advantages <- np_sub discounted values ;;
    ret (states, advantages)
  with
  | inl e => (self, inl e)
  | inr (states, advantages) =>
      match policy_loop 0 states advantages actions self with
      | (self, inl e) => (self, inl e)
      | (self, inr _) => value_loop 0 states advantages self
      end
  end.

(** The discounted return the specification names: [G_t = r_t +
    gamma * G_(t+1)], the return after the last element being 0. *)
Fixpoint returns (gamma : R) (rewards : list R) : list R :=
  match rewards with
  | [] => []
  | r :: rest => (r + gamma * hd 0 (returns gamma rest)) :: returns gamma rest
  end.

(** A batch as [train] hands it over: the four buffers grow together, a
    state has the dimension of the weights, an action is a 1-element
    array. *)
Definition well_shaped (self : PPOAgent) (states : list (list R))
    (actions : list (list R)) (rewards : list R) : Prop :=
  length states = length rewards
  /\ length actions = length rewards
  /\ Forall (fun s => length s = length (policy_weights self)) states
  /\ Forall (fun a => length a = 1%nat) actions
  /\ length (value_weights self) = length (policy_weights self).

(** The mean and the standard deviation of a batch, as real numbers. *)
Definition mean (xs : list R) : R := sum xs / INR (length xs).

Definition std (xs : list R) : R :=
  sqrt (mean (map (fun x => (x - mean xs) * (x - mean xs)) xs)).

End Learner.

(** *** [train] *)

Module Training.
Import Env Learner.
Local Open Scope R_scope.

(** What a pass works on: the learner (which holds the environment), the
    lines printed so far, and how many normal draws [select_action] has
    consumed. *)
Record pass : Type := {
  agent : PPOAgent;
  out : list event;
  draws : nat
}.

Definition print (e : event) : M pass unit :=
  fun st => ({| agent := agent st; out := out st ++ [e]; draws := draws st |},
             inr tt).

Definition on_agent {A} (f : PPOAgent -> PPOAgent * result A) : M pass A :=
  fun st => let '(a, r) := f (agent st) in
            ({| agent := a; out := out st; draws := draws st |}, r).

Definition on_env {A} (f : VANETEnv -> VANETEnv * result A) : M pass A :=
  on_agent (fun a => let '(e, r) := f (env a) in (set_env a e, r)).

Section Random.

(** The random sources: [random.choice]'s draw at each episode, and the
    standard normal draws of [np.random.normal]. *)
Variable pick : nat -> nat.
Variable normal : nat -> R.

(** [self.select_action(state)], consuming one draw. *)
Definition draw_action (state : option ndarray) : M pass (list R) :=
  fun st =>
    ({| agent := agent st; out := out st; draws := S (draws st) |},
     select_action (normal (draws st)) state (agent st)).

(** Lines 234-249: the [while not done] loop of one episode, entered with
    the four buffers; it yields the [rewards] buffer it ends with.  The
    rewards are those [step] returns: floats. *)
Fixpoint while_not_done (fuel batch_size : nat) (state : ndarray)
    (states : list ndarray) (actions : list (list R)) (rewards : list R)
    (next_states : list ndarray) : M pass (list R) :=
  match fuel with
  | O => mraise OutOfFuel
  | S fuel =>
      action <~ draw_action (Some state) ;;
      r <~ on_env (step action) ;;
      let '(next_state, reward, done) := r in
      let states := states ++ [state] in
      let actions := actions ++ [action] in
      let rewards := rewards ++ [reward] in
      let next_states := next_states ++ [next_state] in
      let state := next_state in
      b <~ (if (batch_size <=? length rewards)%nat then
              _ <~ on_agent (update states actions (FloatRewards rewards)
                               next_states) ;;
              mret ([], [], [], [])
            else mret (states, actions, rewards, next_states)) ;;
      let '(states, actions, rewards, next_states) := b in
      if done : bool then mret rewards
      else while_not_done fuel batch_size state
             states actions rewards next_states
  end.

(** Lines 230-256: the episodes still to run. *)
Fixpoint episodes (fuel batch_size : nat) (todo : list nat)
    (all_rewards : list R) : M pass (list R) :=
  match todo with
  | [] => mret all_rewards
  | episode :: todo =>
      state <~ on_env (reset (pick episode)) ;;
      rewards <~ while_not_done fuel batch_size state [] [] [] [] ;;
      let total_reward := sum rewards in
      _ <~ (if (episode mod 100 =? 0)%nat
            then print (PrintEpisode episode total_reward)
            else mret tt) ;;
      episodes fuel batch_size todo (all_rewards ++ [total_reward])
  end.

(** [train]: after the episodes, line 259 names [plt], which the module
    never imports. *)
Definition train (fuel num_episodes batch_size : nat) : M pass unit :=
  _ <~ episodes fuel batch_size (seq 0 num_episodes) [] ;;
  mraise (NameError "plt").

End Random.

End Training.

(** ** Per-Record Optimizer and connection handler ([Server]) *)

Module Optimizer.
Import Env Learner Training.
Local Open Scope R_scope.

(** What [json.loads] returned: an object, or some other JSON value. *)
Inductive decoded : Type :=
| JObject (car_log : json_object)
| JOther (v : pyval).

(** What the connection delivered on [recv]. *)
Inductive received : Type :=
| NoData
| Malformed
| Json (d : decoded).

(** The object.  [net] is the emulator: [None] as [__init__] leaves it,
    or a lookup from a node name to the name of the node's first wireless
    interface. *)
Record Server : Type := {
  car_logs : list decoded;
  net : option (pyval -> option string)
}.

(** The call of [apply_optimized_settings]: the actuation command. *)
Record command : Type := {
  cmd_car_id : pyval;
  cmd_power : R;
  cmd_data_rate : pyval
}.

(** What a handler leaves behind: the lines printed and emulator requests
    made, and the actuation commands issued. *)
Record trace : Type := {
  events : list event;
  commands : list command
}.

(** [apply_optimized_settings]: every exception is caught and printed. *)
Definition apply_optimized_settings (self : Server) (car_id : pyval)
    (power_transmission : R) (data_rate : pyval) : list event :=
  match net self with
  | None =>
      [PrintErrorApplying car_id
         (AttributeError "'NoneType' object has no attribute 'getNodeByName'")]
  | Some get_node =>
      match get_node car_id with
      | None => []
      | Some interface =>
          [SetTxPower car_id power_transmission;
           IwSetBitrate interface data_rate;
           PrintDataRateSet interface data_rate;
           PrintApplied car_id power_transmission data_rate]
      end
  end.

Section Random.

Variable pick : nat -> nat.
Variable normal : nat -> R.
Variable randn : nat -> R.

(** The loop bound of the model for [train]'s [while]. *)
Variable fuel : nat.

Definition print_lookup (e : RateTable.event) : event :=
  match e with
  | RateTable.NoMcsTable s => PrintNoMcsTable s
  end.

(** [process_car_log]: the trace of the pass, and whether it returned. *)
Definition process_car_log (self : Server) (car_log : json_object)
  : trace * result unit :=
  let ieee_standard := get car_log "ieee_standard" (VStr "802.11g") in
  let bandwidth := get car_log "bandwidth" (VInt 20) in
  let mcs_index := get car_log "mcs_index" (VInt 0) in
  let env := Env.init [car_log] ieee_standard bandwidth in
  let agent := Learner.init randn env in
  let st := {| agent := agent; out := []; draws := O |} in
  match train pick normal fuel 1 128 st with
  | (st, inl e) => ({| events := out st; commands := [] |}, inl e)
  | (st, inr _) =>
      let env := Learner.env (Training.agent st) in
      match
        action <- select_action (normal (draws st)) (current_state env)
                    (Training.agent st) ;;
        match action with
        | a :: _ => ret a
        | [] => raise (IndexError "index 0 is out of bounds")
        end
      with
      | inl e => ({| events := out st; commands := [] |}, inl e)
      | inr new_power_transmission =>
          let '(printed, looked_up) :=
            RateTable.get_modulation_and_datarate
              ieee_standard mcs_index bandwidth in
          let printed := out st ++ map print_lookup printed in
          match
            md <- looked_up ;;
            _ <- getitem car_log "vehicle_density" ;;
            car_id <- getitem car_log "car_id" ;;
            ret (snd md, car_id)
          with
          | inl e => ({| events := printed; commands := [] |}, inl e)
          | inr (data_rate, car_id) =>
              ({| events :=
                    printed
                    ++ [PrintAdjusted car_id new_power_transmission data_rate]
                    ++ apply_optimized_settings self car_id
                         new_power_transmission data_rate;
                  commands :=
                    [{| cmd_car_id := car_id;
                        cmd_power := new_power_transmission;
                        cmd_data_rate := data_rate |}] |},
               ret tt)
          end
      end
  end.

(** [handle_client]: the server after the call and the handler's trace. *)
Definition handle_client (self : Server) (data : received)
  : Server * trace :=
  match data with
  | NoData => (self, {| events := [SocketClose]; commands := [] |})
  | Malformed =>
      (self,
       {| events := [PrintErrorHandling (ValueError "json"); SocketClose];
          commands := [] |})
  | Json decoded_data =>
      let self :=
        {| car_logs := car_logs self ++ [decoded_data]; net := net self |} in
      let '(t, r) :=
        match decoded_data with
        | JObject car_log => process_car_log self car_log
        | JOther _ =>
            ({| events := []; commands := [] |},
             raise (AttributeError "object has no attribute 'get'"))
        end in
      (self,
       {| events :=
            events t
            ++ match r with
               | inl e => [PrintErrorHandling e]
               | inr _ => []
               end
            ++ [SocketClose];
          commands := commands t |})
  end.

End Random.

(** The record of the end-to-end scenario: power 15, data rate 18, CBR
    0.6, and neither standard, index nor bandwidth. *)
Definition scenario_record : json_object :=
  list_to_map
    [ ("power_transmission", VInt 15); ("data_rate", VInt 18);
      ("channel_busy_ratio", VFloat 0.6) ].

(** The same record with a vehicle density of 0.5 added. *)
Definition scenario_record_with_density : json_object :=
  <["vehicle_density" := VFloat 0.5]> scenario_record.

(** A server as [__init__] builds it. *)
Definition server_0 : Server := {| car_logs := []; net := None |}.

End Optimizer.

(** ** Telemetry collector ([server.py]) *)

Module Collector.
Local Open Scope Q_scope.

(** [round(x)] to an integer, ties to the even neighbour. *)
Definition round_half_even (q : Q) : Z :=
  let f := Qfloor q in
  match Qcompare (q - inject_Z f) (1 # 2) with
  | Lt => f
  | Gt => (f + 1)%Z
  | Eq => if Z.even f then f else (f + 1)%Z
  end.

(** [round(x, 2)], on the exact value of [x]. *)
Definition round2 (q : Q) : Q := inject_Z (round_half_even (q * 100)) / 100.

(** *** Python floats

    A Python float is an IEEE binary64 number: a finite one is known by
    its exact rational value, the others are the infinities and [nan].
    (The sign of a zero is not kept.) *)
Inductive float : Type :=
| Finite (q : Q)
| NonFinite (x : special).

(** The float as a value of a record. *)
Definition float_value (x : float) : pyval :=
  match x with
  | Finite q => VFloat q
  | NonFinite s => VSpecial s
  end.

(** [2 ** e] for an integer [e] of either sign. *)
Definition pow2 (e : Z) : Q :=
  if (0 <=? e)%Z then inject_Z (2 ^ e) else 1 # Z.to_pos (2 ^ (- e)).

(** The exponent [e] with [2 ** e <= n / d < 2 ** (e + 1)]. *)
Definition ilog2 (n d : positive) : Z :=
  let e := (Z.log2 (Zpos n) - Z.log2 (Zpos d))%Z in
  if Qle_bool (pow2 e) (Zpos n # d) then e else (e - 1)%Z.

(** Rounding of [n / d] to binary64: 53 significant bits, no exponent
    below that of the subnormal numbers, ties to the even significand,
    and an infinity from [2 ** 1024] on. *)
Definition nearest (negative : bool) (n d : positive) : float :=
  let quantum := Z.max (ilog2 n d - 52) (-1074) in
  let m := round_half_even ((Zpos n # d) / pow2 quantum) in
  let r := Qred (inject_Z m * pow2 quantum) in
  if Qle_bool (pow2 1024) r
  then NonFinite (if negative then NegInf else PosInf)
  else Finite (if negative then - r else r).

(** The float nearest to the number [q]: what a decimal literal denotes,
    and what an arithmetic operation returns for its exact result [q]. *)
Definition to_double (q : Q) : float :=
  match Qnum q with
  | Z0 => Finite 0
  | Zpos n => nearest false n (Qden q)
  | Zneg n => nearest true n (Qden q)
  end.

(** The floats of the literals [0.9] and [1.1]. *)
Definition double_0_9 : Q := 8106479329266893 # 9007199254740992.
Definition double_1_1 : Q := 2476979795053773 # 2251799813685248.

(** [x * c] for the float [c] of a positive literal. *)
Definition mul_literal (x : float) (c : Q) : float :=
  match x with
  | Finite q => to_double (q * c)
  | NonFinite s => NonFinite s
  end.

(** [round(x, 2)] on a float: the exact value of [x] is rounded to two
    decimals, ties to even, and the result is the float nearest to that
    decimal; infinities and [nan] round to themselves. *)
Definition py_round2 (x : float) : float :=
  match x with
  | Finite q => to_double (round2 q)
  | NonFinite s => NonFinite s
  end.

Section Float.

(** The grammar by which Python's [float] reads a string is not code of
    this repository: [float_of_str s] is the float [float(s)] returns,
    or [None] when it raises ValueError. *)
Variable float_of_str : string -> option float.

(** [float(v)].  An [int] converts to the nearest float, and raises
    OverflowError when that would be beyond the largest one, which is from
    [2 ** 1024 - 2 ** 970] on.  A [VFloat q] is the float nearest to
    [q]. *)
Definition py_float (v : pyval) : result float :=
  match v with
  | VInt z =>
      if (Z.abs z <? 2 ^ 1024 - 2 ^ 970)%Z
      then ret (to_double (inject_Z z))
      else raise (OverflowError "int too large to convert to float")
  | VFloat q => ret (to_double q)
  | VSpecial x => ret (NonFinite x)
  | VBool b => ret (Finite (if b then 1 else 0))
  | VStr s =>
      match float_of_str s with
      | Some x => ret x
      | None => raise (ValueError "could not convert string to float")
      end
  | VNone | VList _ =>
      raise (TypeError "float() argument must be a string or a real number")
  end.

(** Lines 21-26: the [try] block and its [except]. *)
Definition originals (record : json_object) : float * float :=
  match
    original_power <- py_float (get record "power_transmission" (VInt 15)) ;;
    original_data_rate <- py_float (get record "data_rate" (VInt 18)) ;;
    ret (original_power, original_data_rate)
  with
  | inr pd => pd
  | inl _ => (Finite 15, Finite 18)
  end.

(** Lines 29-30: the two values written. *)
Definition optimized_power (original_power : float) : pyval :=
  float_value (py_round2 (mul_literal original_power double_0_9)).

Definition optimized_data_rate (original_data_rate : float) : pyval :=
  float_value (py_round2 (mul_literal original_data_rate double_1_1)).

(** Lines 21-30: the body of the loop, on one record. *)
Definition process_record (record : json_object) : json_object :=
  let '(original_power, original_data_rate) := originals record in
  <["optimized_data_rate" := optimized_data_rate original_data_rate]>
    (<["optimized_power" := optimized_power original_power]> record).

(** [process_data]: the loop appends to [processed]. *)
Definition process_data (data_list : list json_object) : list json_object :=
  fold_left (fun processed record => processed ++ [process_record record])
    data_list [].

(** The claim's reading, to compare: each field falls back to its own
    default, whatever becomes of the other one. *)
Definition field_or_default (record : json_object) (key : string) (default : Z)
  : float :=
  match py_float (get record key (VInt default)) with
  | inr x => x
  | inl _ => Finite (inject_Z default)
  end.

Definition process_record_per_field (record : json_object) : json_object :=
  <["optimized_data_rate" :=
      optimized_data_rate (field_or_default record "data_rate" 18)]>
    (<["optimized_power" :=
         optimized_power (field_or_default record "power_transmission" 15)]>
       record).

End Float.

(** A record whose power is 20 and whose data rate is JSON [null]. *)
Definition null_rate_record : json_object :=
  list_to_map [ ("power_transmission", VInt 20); ("data_rate", VNone) ].

End Collector.

(** ** Environments a program can hold *)

Module EnvReach.
Import Env.

(** The environments built by [__init__] from a pool and then only
    changed by calls of [reset] and [step], whatever they return. *)
Inductive reachable (pool : list json_object) (ieee_standard bandwidth : pyval)
  : VANETEnv -> Prop :=
| reach_init :
    reachable pool ieee_standard bandwidth
      (Env.init pool ieee_standard bandwidth)
| reach_reset (self : VANETEnv) (pick : nat) :
    reachable pool ieee_standard bandwidth self ->
    reachable pool ieee_standard bandwidth (fst (reset pick self))
| reach_step (self : VANETEnv) (action : list R) :
    reachable pool ieee_standard bandwidth self ->
    reachable pool ieee_standard bandwidth (fst (step action self)).

End EnvReach.

(** ** What a call leaves of a learner *)

Module LearnerFrame.
Import Learner.

(** Two learners with the same environment, discount, noise scale and
    learning rates, and with weights of the same shapes. *)
Definition same_shape (self self' : PPOAgent) : Prop :=
  env self' = env self
  /\ gamma self' = gamma self
  /\ clip_ratio self' = clip_ratio self
  /\ policy_lr self' = policy_lr self
  /\ value_lr self' = value_lr self
  /\ length (policy_weights self') = length (policy_weights self)
  /\ length (value_weights self') = length (value_weights self).

End LearnerFrame.

Module TrainingKept.
Import Learner Training.

(** What a pass keeps whatever happens to the environment: the weights,
    the printed lines; and at most one more normal draw. *)
Definition kept (st st' : pass) : Prop :=
  policy_weights (agent st') = policy_weights (agent st)
  /\ value_weights (agent st') = value_weights (agent st)
  /\ out st' = out st
  /\ (draws st' <= S (draws st))%nat.

End TrainingKept.

(** ** The collector's report ([write_csv]) and main program *)

Module Report.
Import Collector.

(** Line 35: the columns. *)
Definition fieldnames : list string :=
  [ "timestamp"; "car_id"; "position"; "speed";
    "power_transmission"; "optimized_power";
    "data_rate"; "optimized_data_rate";
    "modulation"; "beacon_rate"; "channel_busy_ratio" ].

(** Every key of the dict is a column. *)
Definition only_columns (rowdict : json_object) : Prop :=
  map_Forall (fun (key : string) (_ : pyval) => key ∈ fieldnames) rowdict.

(** [csv.DictWriter.writerow] with the defaults [restval=''] and
    [extrasaction='raise']: the cells of the row in column order, before
    the csv module turns them into text; a key that is no column raises
    ValueError. *)
Definition cells (rowdict : json_object) : list pyval :=
  map (fun key => get rowdict key (VStr "")) fieldnames.

Definition writerow (rowdict : json_object) : result (list pyval) :=
  if decide (only_columns rowdict)
  then ret (cells rowdict)
  else raise (ValueError "dict contains fields not in fieldnames").

(** Lines 42-43: the rows still to write, after those [written]. *)
Fixpoint write_rows (data_list : list json_object)
    (written : list (list pyval)) : list (list pyval) * result unit :=
  match data_list with
  | [] => (written, ret tt)
  | record :: rest =>
      match writerow record with
      | inl e => (written, inl e)
      | inr row => write_rows rest (written ++ [row])
      end
  end.

(** [write_csv]: the rows the file holds when the [with] block is left
    (the file is truncated on opening), and whether the call returned;
    it logs its success line exactly when it returns. *)
Definition write_csv (data_list : list json_object)
  : list (list pyval) * result unit :=
  write_rows data_list [map VStr fieldnames].

(** Lines 75-76 of the main program, from the received records on. *)
Definition report (float_of_str : string -> option float)
    (received_data : list json_object) : list (list pyval) * result unit :=
  write_csv (process_data float_of_str received_data).

End Report.

(** ** The simulated client ([client.py]) *)

Module Client.
Import Collector.
Local Open Scope Q_scope.

Section Sources.

(** What the run draws from: the values of [random.random()] behind the
    calls of [random.uniform], the draws of [random.choice], and the
    clock's timestamp at each simulated second. *)
Variable random : nat -> Q.
Variable choose : nat -> nat.
Variable now : nat -> string.

(** [random.uniform(a, b)] on the draw [u]. *)
Definition uniform (a b u : Q) : Q := a + (b - a) * u.

(** [random.choice(seq)] of a non-empty literal list. *)
Definition choice (seq : list pyval) (pick : nat) : pyval :=
  nth (pick mod length seq) seq VNone.

(** [f"car{i}"] *)
Definition car_name (i : nat) : string :=
  ("car" ++ NilEmpty.string_of_uint (Nat.to_uint i))%string.

(** Lines 28-38: the record of vehicle [i] at second [t], the [n]-th
    record of the run. *)
Definition make_record (current_time : string) (i n : nat) : json_object :=
  list_to_map
    [ ("timestamp", VStr current_time);
      ("car_id", VStr (car_name i));
      ("position",
       VList [ VFloat (round2 (uniform 0 1000 (random (6 * n))));
               VFloat (round2 (uniform 0 1000 (random (6 * n + 1)))) ]);
      ("speed", VFloat (round2 (uniform 0 40 (random (6 * n + 2)))));
      ("power_transmission",
       VFloat (round2 (uniform 10 30 (random (6 * n + 3)))));
      ("data_rate", VFloat (round2 (uniform 6 54 (random (6 * n + 4)))));
      ("modulation",
       choice [VStr "BPSK"; VStr "QPSK"; VStr "16-QAM"; VStr "64-QAM"]
         (choose (2 * n)));
      ("beacon_rate", choice [VInt 5; VInt 10; VInt 15] (choose (2 * n + 1)));
      ("channel_busy_ratio",
       VFloat (round2 (uniform 0 1 (random (6 * n + 5))))) ].

Definition num_vehicles : nat := 10.
Definition simulation_run_duration : nat := 10.

(** [run_simulation]: the two nested loops, appending. *)
Definition run_simulation : list json_object :=
  fold_left
    (fun simulation_data t =>
       fold_left
         (fun simulation_data i =>
            simulation_data
            ++ [make_record (now t) i (t * num_vehicles + (i - 1))])
         (seq 1 num_vehicles) simulation_data)
    (seq 0 simulation_run_duration) [].

End Sources.

(** The nine fields of a record of the client. *)
Definition schema : list string :=
  [ "timestamp"; "car_id"; "position"; "speed"; "power_transmission";
    "data_rate"; "modulation"; "beacon_rate"; "channel_busy_ratio" ].

End Client.

(** * Properties *)

Module RateTableProps.
Import RateTable.

Lemma py_eq_20 (bandwidth : pyval) :
  py_eq bandwidth (VInt 20) = true <-> is_20 bandwidth.
Proof.
  unfold is_20. split.
  - destruct bandwidth as [|b|z|q|x|s|l]; simpl; try discriminate.
    4: now destruct x.
    + intros H. eexists. split; [reflexivity|]. now apply Qeq_bool_iff.
    + intros H. eexists. split; [reflexivity|]. now apply Qeq_bool_iff.
    + intros H. eexists. split; [reflexivity|]. now apply Qeq_bool_iff.
  - intros (q & Hq & E).
    destruct bandwidth as [|b|z|q'|x|s|l]; simpl in *; try discriminate;
      injection Hq as <-; now apply Qeq_bool_iff.
Qed.

Lemma py_eq_not_20 (bandwidth : pyval) :
  py_eq bandwidth (VInt 20) = false <-> ~ is_20 bandwidth.
Proof.
  rewrite <- py_eq_20. destruct (py_eq bandwidth (VInt 20)); split;
    congruence.
Qed.

Lemma adaptive_tables (s : string) (tbl : list (list pyval)) :
  In s bandwidth_adaptive -> mcs_tables !! s = Some tbl ->
  (s = "802.11n" /\ tbl = table_n) \/ (s = "802.11ac" /\ tbl = table_ac) \/
  (s = "802.11ax" /\ tbl = table_ax) \/ (s = "802.11bd" /\ tbl = table_bd).
Proof.
  simpl. intros [<-|[<-|[<-|[<-|[]]]]] H; vm_compute in H;
    injection H as <-; tauto.
Qed.

Lemma adaptive_in (s : string) :
  In s bandwidth_adaptive -> in_adaptive (VStr s) = true.
Proof.
  simpl. intros [<-|[<-|[<-|[<-|[]]]]]; reflexivity.
Qed.

Lemma lookup_adaptive (s : string) (tbl : list (list pyval))
    (mcs_index bandwidth : pyval) :
  In s bandwidth_adaptive -> mcs_tables !! s = Some tbl ->
  lookup s mcs_index bandwidth = ([], scan tbl mcs_index bandwidth).
Proof.
  intros Hs Ht. unfold lookup, get_modulation_and_datarate. simpl.
  rewrite Ht, (adaptive_in s Hs).
  destruct (adaptive_tables s tbl Hs Ht) as [[_ ->]|[[_ ->]|[[_ ->]|[_ ->]]]];
    reflexivity.
Qed.

(** In the bandwidth-adaptive tables the index column is the position. *)
Lemma scan_position (s : string) (tbl : list (list pyval)) (k : nat)
    (entry : list pyval) (m narrow wide bandwidth : pyval) :
  In s bandwidth_adaptive -> mcs_tables !! s = Some tbl ->
  tbl !! k = Some entry ->
  entry !! 1%nat = Some m -> entry !! 2%nat = Some narrow ->
  entry !! 3%nat = Some wide ->
  scan tbl (VInt (Z.of_nat k)) bandwidth
  = ret (m, if py_eq bandwidth (VInt 20) then narrow else wide).
Proof.
  intros Hs Ht Hk Hm Hn Hw.
  destruct (adaptive_tables s tbl Hs Ht) as [[_ ->]|[[_ ->]|[[_ ->]|[_ ->]]]];
    do 10 (destruct k as [|k];
           [ cbv in Hk; first
               [ discriminate Hk
               | injection Hk as <-; cbv in Hm, Hn, Hw;
                 injection Hm as <-; injection Hn as <-; injection Hw as <-;
                 cbn; destruct (py_eq bandwidth (VInt 20)); reflexivity ] | ]);
    cbv in Hk; discriminate Hk.
Qed.

Lemma scan_no_match (tbl : list (list pyval)) (mcs_index bandwidth : pyval) :
  Forall (fun entry => is_Some (entry !! 0%nat)) tbl ->
  matches_no_entry tbl mcs_index ->
  scan tbl mcs_index bandwidth = ret (VNone, VNone).
Proof.
  unfold matches_no_entry. induction tbl as [|entry rest IH]; intros Hi Hn.
  - reflexivity.
  - inversion Hi as [|? ? [e0 He0] Hi']; subst.
    inversion Hn as [|? ? Hne Hn']; subst.
    simpl. unfold item. rewrite He0. simpl.
    rewrite (Hne e0 He0). now apply IH.
Qed.

Lemma adaptive_indexed (s : string) (tbl : list (list pyval)) :
  In s bandwidth_adaptive -> mcs_tables !! s = Some tbl ->
  Forall (fun entry => is_Some (entry !! 0%nat)) tbl.
Proof.
  intros Hs Ht.
  destruct (adaptive_tables s tbl Hs Ht) as [[_ ->]|[[_ ->]|[[_ ->]|[_ ->]]]];
    repeat constructor; eexists; reflexivity.
Qed.

Lemma tables_items (s : string) (tbl : list (list pyval)) :
  mcs_tables !! s = Some tbl -> (s, tbl) ∈ mcs_tables_items.
Proof. apply elem_of_list_to_map_2. Qed.

(** A standard of the table prints nothing. *)
Lemma lookup_silent (s : string) (tbl : list (list pyval))
    (mcs_index bandwidth : pyval) :
  mcs_tables !! s = Some tbl -> fst (lookup s mcs_index bandwidth) = [].
Proof.
  intros Ht. pose proof (tables_items s tbl Ht) as Hin.
  unfold lookup, get_modulation_and_datarate. simpl tables_get.
  unfold ret. rewrite Ht.
  unfold mcs_tables_items in Hin.
  repeat (apply elem_of_cons in Hin as [Hin|Hin];
          [ injection Hin as -> ->; reflexivity | ]).
  now apply elem_of_nil in Hin.
Qed.

(** C2. The Rate Table lookup is a function of (standard, mcs_index,
    bandwidth) whose only effect is the failure line: 802.11p index 0 is
    (BPSK, 3.0) at any bandwidth; 802.11ax index 3 is (16-QAM, 29.2) at 20
    and (16-QAM, 60.0) at 40; a standard that is not a key of the table
    yields the (N/A, N/A) sentinel and the failure line; in a
    bandwidth-adaptive table the entry at index [k] is returned with its
    narrow column when the bandwidth is exactly 20 and with its wider
    column for every other bandwidth value; and a standard of the table
    prints nothing. *)
Theorem lookup_spec :
  (forall bandwidth,
      lookup "802.11p" (VInt 0) bandwidth
      = ([], inr (VStr "BPSK", VFloat 3.0)))
  /\ lookup "802.11ax" (VInt 3) (VInt 20)
     = ([], inr (VStr "16-QAM", VFloat 29.2))
  /\ lookup "802.11ax" (VInt 3) (VInt 40)
     = ([], inr (VStr "16-QAM", VFloat 60.0))
  /\ (forall standard mcs_index bandwidth,
        mcs_tables !! standard = None ->
        lookup standard mcs_index bandwidth
        = ([NoMcsTable (VStr standard)], inr (VStr "N/A", VStr "N/A")))
  /\ (forall standard tbl (k : nat) entry m narrow wide bandwidth,
        In standard bandwidth_adaptive ->
        mcs_tables !! standard = Some tbl ->
        tbl !! k = Some entry ->
        entry !! 1%nat = Some m ->
        entry !! 2%nat = Some narrow ->
        entry !! 3%nat = Some wide ->
        (is_20 bandwidth ->
         lookup standard (VInt (Z.of_nat k)) bandwidth = ([], inr (m, narrow)))
        /\ (~ is_20 bandwidth ->
            lookup standard (VInt (Z.of_nat k)) bandwidth
            = ([], inr (m, wide))))
  /\ (forall standard tbl mcs_index bandwidth,
        mcs_tables !! standard = Some tbl ->
        fst (lookup standard mcs_index bandwidth) = []).
Proof.
  split; [|split; [|split; [|split; [|split]]]]; [| | | | |exact lookup_silent].
  - intros bandwidth. reflexivity.
  - reflexivity.
  - reflexivity.
  - intros standard mcs_index bandwidth Hnone.
    unfold lookup, get_modulation_and_datarate. simpl.
    now rewrite Hnone.
  - intros standard tbl k entry m narrow wide bandwidth Hs Ht Hk Hm Hn Hw.
    rewrite (lookup_adaptive standard tbl _ _ Hs Ht).
    rewrite (scan_position standard tbl k entry m narrow wide bandwidth
               Hs Ht Hk Hm Hn Hw).
    split; intros H20.
    + apply py_eq_20 in H20. now rewrite H20.
    + apply py_eq_not_20 in H20. now rewrite H20.
Qed.

(** The lookup at an unknown standard, and at 802.11bd index 9 for the
    bandwidths 20.0 and 10. *)
Lemma lookup_spec_witness :
  lookup "802.11be" (VInt 0) (VInt 20)
  = ([NoMcsTable (VStr "802.11be")], inr (VStr "N/A", VStr "N/A"))
  /\ lookup "802.11bd" (VInt 9) (VFloat 20.0)
     = ([], inr (VStr "256-QAM", VFloat 105.0))
  /\ lookup "802.11bd" (VInt 9) (VInt 10)
     = ([], inr (VStr "256-QAM", VFloat 210.0)).
Proof.
  destruct lookup_spec as (_ & _ & _ & Hunknown & Hadaptive & _).
  split; [|split].
  - apply Hunknown. reflexivity.
  - apply (Hadaptive "802.11bd" table_bd 9%nat
             (mcs2 9 "256-QAM" 105.0 210.0) (VStr "256-QAM")
             (VFloat 105.0) (VFloat 210.0) (VFloat 20.0));
      try reflexivity.
    + simpl. tauto.
    + exists 20.0%Q. split; reflexivity.
  - apply (Hadaptive "802.11bd" table_bd 9%nat
             (mcs2 9 "256-QAM" 105.0 210.0) (VStr "256-QAM")
             (VFloat 105.0) (VFloat 210.0) (VInt 10));
      try reflexivity.
    + simpl. tauto.
    + intros (q & Hq & E). injection Hq as <-. discriminate E.
Defined.

(** C10. For a bandwidth-adaptive standard and an mcs_index that equals
    the index column of no entry of its table, the lookup returns
    (None, None): not the (N/A, N/A) sentinel, nothing raised, nothing
    printed. *)
Theorem lookup_unmatched_index (standard : string)
    (tbl : list (list pyval)) (mcs_index bandwidth : pyval) :
  In standard bandwidth_adaptive ->
  mcs_tables !! standard = Some tbl ->
  matches_no_entry tbl mcs_index ->
  lookup standard mcs_index bandwidth = ([], inr (VNone, VNone)).
Proof.
  intros Hs Ht Hno.
  rewrite (lookup_adaptive standard tbl _ _ Hs Ht).
  rewrite (scan_no_match tbl mcs_index bandwidth); [reflexivity| |exact Hno].
  exact (adaptive_indexed standard tbl Hs Ht).
Qed.

(** 802.11n has the indices 0..7 only: index 8 matches no entry. *)
Lemma lookup_unmatched_index_witness :
  lookup "802.11n" (VInt 8) (VInt 20) = ([], inr (VNone, VNone)).
Proof.
  apply (lookup_unmatched_index "802.11n" table_n).
  - simpl. tauto.
  - reflexivity.
  - unfold matches_no_entry, table_n.
    repeat constructor; intros e0 H; injection H as <-; reflexivity.
Defined.

End RateTableProps.

Module EnvProps.
Import Env.
Local Open Scope R_scope.

Lemma H_nonneg (x : R) : 0 <= x -> H x = 1.
Proof. intros Hx. unfold H. destruct (Rge_dec x 0); [reflexivity | lra]. Qed.

Lemma H_neg (x : R) : x < 0 -> H x = 0.
Proof. intros Hx. unfold H. destruct (Rge_dec x 0); [lra | reflexivity]. Qed.

Lemma g_eq_cases (x k : R) : g x k = g_cases x k.
Proof.
  unfold g, g_cases.
  destruct (Rlt_dec x 0) as [Hx|Hx], (Rlt_dec x k) as [Hk|Hk].
  - rewrite (H_neg x), (H_neg (x - k)) by lra. lra.
  - rewrite (H_neg x), (H_nonneg (x - k)) by lra. lra.
  - rewrite (H_nonneg x), (H_neg (x - k)) by lra. lra.
  - rewrite (H_nonneg x), (H_nonneg (x - k)) by lra. lra.
Qed.

Lemma clip_bounds (x : R) : 1 <= clip x 1 30 <= 30.
Proof.
  unfold clip, Rmin, Rmax.
  destruct (Rle_dec x 1); destruct (Rle_dec _ 30); lra.
Qed.

Lemma clip_id (x : R) : 1 <= x <= 30 -> clip x 1 30 = x.
Proof.
  intros Hx. unfold clip, Rmin, Rmax.
  destruct (Rle_dec x 1); destruct (Rle_dec _ 30); lra.
Qed.

Lemma Rabs_le_dec_true (x eps : R) (A : Type) (a b : A) :
  Rabs x <= eps -> (if Rle_dec (Rabs x) eps then a else b) = a.
Proof. intros Hx. destruct (Rle_dec (Rabs x) eps); [reflexivity | lra]. Qed.

Lemma Rabs_le_dec_false (x eps : R) (A : Type) (a b : A) :
  Rabs x > eps -> (if Rle_dec (Rabs x) eps then a else b) = b.
Proof. intros Hx. destruct (Rle_dec (Rabs x) eps); [lra | reflexivity]. Qed.

Lemma reward_function_weights (self : VANETEnv) (b w' w2 k cbr p p_prime : R) :
  pi_b self = Some b -> kb self = Some k ->
  pi_p_prime self = Some w' -> pi_p2 self = Some w2 ->
  reward_function self cbr p p_prime
  = let reward := b * g cbr k - w' * Rabs (p - p_prime) - w2 * g p_prime 20 in
    if Rle_dec (Rabs (cbr - CBR_target self)) float_0_025
    then ret (reward + 10) else ret (reward - float_0_1).
Proof.
  intros Hb Hk Hw' Hw2. unfold reward_function.
  rewrite Hb, Hk, Hw', Hw2. reflexivity.
Qed.

(** What [step] does on a numeric state and a non-empty action: the new
    state is stored, then the string index raises. *)
Lemma step_numeric (self : VANETEnv) (p rho delta_p : R) (rest : list R) :
  current_state self = Some [Num p; Num rho] ->
  step (delta_p :: rest) self
  = (set_current_state self
       [Num (clip (p + delta_p) 1 30);
        Num (rho * np_power (p / clip (p + delta_p) 1 30) (1 / beta))],
     inl (IndexError string_index_msg)).
Proof.
  intros Hs. unfold step. rewrite Hs. reflexivity.
Qed.

Lemma Rpower_one_base (y : R) : Rpower 1 y = 1.
Proof. unfold Rpower. now rewrite ln_1, Rmult_0_r, exp_0. Qed.

Lemma Rpower_lt_one (x y : R) : 0 < x < 1 -> 0 < y -> Rpower x y < 1.
Proof.
  intros [Hx0 Hx1] Hy. unfold Rpower.
  rewrite <- exp_0. apply exp_increasing.
  assert (ln x < 0) by (rewrite <- ln_1; now apply ln_increasing).
  nra.
Qed.

Lemma ratio_pos (p new_p : R) : 0 < p -> 1 <= new_p -> 0 < p / new_p.
Proof.
  intros Hp Hn. unfold Rdiv. apply Rmult_lt_0_compat; [exact Hp|].
  apply Rinv_0_lt_compat; lra.
Qed.

Lemma inside_the_band : Rabs (0.59375 - float_0_6) <= float_0_025.
Proof.
  unfold float_0_6, float_0_025, Rabs.
  destruct (Rcase_abs (0.59375 - _)); lra.
Defined.

Lemma decimal_edge_outside : Rabs (0.625 - float_0_6) > float_0_025.
Proof.
  unfold float_0_6, float_0_025, Rabs.
  destruct (Rcase_abs (0.625 - _)); lra.
Defined.

(** C1. [step] cannot run to completion: whatever the object's state and
    the action, the call raises; and on a numeric state (power, density)
    with an action array holding a delta, it first stores the clipped
    power and the new density and then raises the IndexError of indexing
    that 2-element numeric vector with the string key 'cbr'. *)
Theorem step_cannot_complete (self : VANETEnv) (action : list R) :
  (exists e, snd (step action self) = inl e)
  /\ (forall p rho delta_p rest,
        current_state self = Some [Num p; Num rho] ->
        action = delta_p :: rest ->
        step action self
        = (set_current_state self
             [Num (clip (p + delta_p) 1 30);
              Num (rho * np_power (p / clip (p + delta_p) 1 30) (1 / beta))],
           inl (IndexError string_index_msg))).
Proof.
  split.
  - unfold step.
    destruct (bind (unpack_state (current_state self)) _)
      as [e|[[p new_p] rho]]; simpl; eauto.
  - intros p rho delta_p rest Hs ->. now apply step_numeric.
Qed.

(** [step] in state (15, 0.5) with the action [1]. *)
Lemma step_cannot_complete_witness :
  step [1] env_15
  = (set_current_state env_15
       [Num (clip (15 + 1) 1 30);
        Num (0.5 * np_power (15 / clip (15 + 1) 1 30) (1 / beta))],
     inl (IndexError string_index_msg)).
Proof.
  apply (proj2 (step_cannot_complete env_15 [1]) 15 0.5 1 []); reflexivity.
Defined.

(** C3 (as amended). With the four reward weights assigned and the target
    0.6, [reward_function] returns
    pi_b*g(cbr,kb) - pi_p_prime*|p - p_prime| - pi_p2*g(p_prime,20), plus
    10 when |cbr - 0.6| <= 0.025 and minus 0.1 otherwise, the comparison
    being on floats: 0.6 and 0.025 are the floats of these literals, so
    that cbr = 0.6 is inside the band and the decimal edge cbr = 0.625 is
    outside it (its distance to the float 0.6 is 0.025000000000000022);
    g(x,k) is x for 0 <= x < k, -x for x >= k and x >= 0, 0 for x < 0 and
    x < k, and -2x for k <= x < 0; so g has the specification's three cases
    whenever k >= 0, as in g(p_prime,20), and g(-1,5) = 0, g(3,5) = 3,
    g(7,5) = -7. *)
Theorem reward_function_spec (self : VANETEnv)
    (b w' w2 k cbr p p_prime : R) :
  pi_b self = Some b -> kb self = Some k ->
  pi_p_prime self = Some w' -> pi_p2 self = Some w2 ->
  CBR_target self = float_0_6 ->
  (Rabs (cbr - float_0_6) <= float_0_025 ->
   reward_function self cbr p p_prime
   = ret (b * g_cases cbr k - w' * Rabs (p - p_prime)
          - w2 * g_spec p_prime 20 + 10))
  /\ (Rabs (cbr - float_0_6) > float_0_025 ->
      reward_function self cbr p p_prime
      = ret (b * g_cases cbr k - w' * Rabs (p - p_prime)
             - w2 * g_spec p_prime 20 - float_0_1))
  /\ Rabs (float_0_6 - float_0_6) <= float_0_025
  /\ Rabs (0.625 - float_0_6) > float_0_025
  /\ Rabs (float_0_6 - 0.6) < 1e-16
  /\ Rabs (float_0_025 - 0.025) < 1e-16
  /\ Rabs (float_0_1 - 0.1) < 1e-16
  /\ (forall x k', g x k' = g_cases x k')
  /\ (forall x k', 0 <= k' -> g x k' = g_spec x k')
  /\ g (-1) 5 = 0 /\ g 3 5 = 3 /\ g 7 5 = -7.
Proof.
  intros Hb Hk Hw' Hw2 Ht.
  assert (Hspec : forall x k', 0 <= k' -> g x k' = g_spec x k').
  { intros x k' Hk'. rewrite g_eq_cases. unfold g_cases, g_spec.
    destruct (Rlt_dec x 0), (Rlt_dec x k'); lra. }
  rewrite (reward_function_weights self b w' w2 k cbr p p_prime Hb Hk Hw' Hw2).
  rewrite Ht, g_eq_cases, (Hspec p_prime 20) by lra. cbv zeta.
  split; [|split; [|split; [|split; [|split; [|split; [|split;
    [|split; [|split; [|split; [|split]]]]]]]]]].
  - intros Hin. now rewrite Rabs_le_dec_true.
  - intros Hout. now rewrite Rabs_le_dec_false.
  - unfold Rminus. rewrite Rplus_opp_r, Rabs_R0. unfold float_0_025. lra.
  - exact decimal_edge_outside.
  - unfold float_0_6, Rabs. destruct (Rcase_abs _); lra.
  - unfold float_0_025, Rabs. destruct (Rcase_abs _); lra.
  - unfold float_0_1, Rabs. destruct (Rcase_abs _); lra.
  - exact g_eq_cases.
  - exact Hspec.
  - rewrite g_eq_cases. unfold g_cases.
    destruct (Rlt_dec (-1) 0), (Rlt_dec (-1) 5); lra.
  - rewrite g_eq_cases. unfold g_cases.
    destruct (Rlt_dec 3 0), (Rlt_dec 3 5); lra.
  - rewrite g_eq_cases. unfold g_cases.
    destruct (Rlt_dec 7 0), (Rlt_dec 7 5); lra.
Qed.

(** The reward with unit weights inside the band, at cbr = 0.59375, and
    outside it, at cbr = 0.625. *)
Lemma reward_function_spec_witness :
  reward_function (with_weights env_15 1 1 1 1) 0.59375 16 15
  = ret (1 * g_cases 0.59375 1 - 1 * Rabs (16 - 15) - 1 * g_spec 15 20 + 10)
  /\ reward_function (with_weights env_15 1 1 1 1) 0.625 16 15
     = ret (1 * g_cases 0.625 1 - 1 * Rabs (16 - 15) - 1 * g_spec 15 20
            - float_0_1).
Proof.
  split.
  - apply (proj1 (reward_function_spec (with_weights env_15 1 1 1 1)
                    1 1 1 1 0.59375 16 15
                    eq_refl eq_refl eq_refl eq_refl eq_refl)).
    exact inside_the_band.
  - apply (proj1 (proj2 (reward_function_spec (with_weights env_15 1 1 1 1)
                           1 1 1 1 0.625 16 15
                           eq_refl eq_refl eq_refl eq_refl eq_refl))).
    exact decimal_edge_outside.
Defined.

(** C3, the claim as stated fails twice.  For a negative threshold:
    g(-1,-2) is 2, neither the 0 claimed for x < 0 nor the -x = 1 claimed
    for x >= k, and the reward with pi_b = 1, kb = -2 at cbr = -1 is
    2 - 0.1, not the -0.1 or 0.9 of the claimed cases.  At the edge of
    the band: cbr = 0.625 is at the decimal distance 0.025 from 0.6, where
    the claim adds 10, but the code subtracts 0.1. *)
Lemma reward_function_claim_counterexample :
  -1 < 0 /\ -1 >= -2
  /\ g (-1) (-2) = 2 /\ g_spec (-1) (-2) = 0
  /\ g (-1) (-2) <> g_spec (-1) (-2) /\ g (-1) (-2) <> - (-1)
  /\ reward_function (with_weights env_15 1 0 0 (-2)) (-1) 0 0
     = ret (2 - float_0_1)
  /\ Rabs (0.625 - 0.6) <= 0.025
  /\ reward_function (with_weights env_15 1 1 1 1) 0.625 16 15
     = ret (0.625 - 1 - 15 - float_0_1)
  /\ 0.625 - 1 - 15 - float_0_1 <> 0.625 - 1 - 15 + 10.
Proof.
  assert (Hg : g (-1) (-2) = 2).
  { rewrite g_eq_cases. unfold g_cases.
    destruct (Rlt_dec (-1) 0), (Rlt_dec (-1) (-2)); lra. }
  assert (Hs : g_spec (-1) (-2) = 0).
  { unfold g_spec. destruct (Rlt_dec (-1) 0); lra. }
  split; [lra|]. split; [lra|]. split; [exact Hg|]. split; [exact Hs|].
  split; [lra|]. split; [lra|].
  split; [|split; [|split]].
  - rewrite (reward_function_weights _ 1 0 0 (-2)) by reflexivity.
    cbv zeta. rewrite Hg. simpl CBR_target.
    rewrite Rabs_le_dec_false.
    + unfold ret. do 2 f_equal. lra.
    + unfold float_0_6, float_0_025, Rabs.
      destruct (Rcase_abs (-1 - _)); lra.
  - unfold Rabs. destruct (Rcase_abs (0.625 - 0.6)); lra.
  - rewrite (reward_function_weights _ 1 1 1 1) by reflexivity.
    cbv zeta. simpl CBR_target.
    rewrite (Rabs_le_dec_false _ _ _ _ _ decimal_edge_outside).
    assert (G1 : g 0.625 1 = 0.625).
    { rewrite g_eq_cases. unfold g_cases.
      destruct (Rlt_dec 0.625 0), (Rlt_dec 0.625 1); lra. }
    assert (G2 : g 15 20 = 15).
    { rewrite g_eq_cases. unfold g_cases.
      destruct (Rlt_dec 15 0), (Rlt_dec 15 20); lra. }
    assert (A : Rabs (16 - 15) = 1).
    { unfold Rabs. destruct (Rcase_abs (16 - 15)); lra. }
    rewrite G1, G2, A. unfold ret. do 2 f_equal. lra.
  - unfold float_0_1. lra.
Qed.

(** C4, at a failing input: in state (15, 0.5) the action [40] stores the
    clipped power 30 in the object, but the call raises instead of
    returning a new power and done = true. *)
Theorem step_raises_after_clipping :
  snd (step [40] env_15) = inl (IndexError string_index_msg)
  /\ current_state (fst (step [40] env_15))
     = Some [Num 30; Num (0.5 * np_power (15 / 30) (1 / beta))].
Proof.
  rewrite (step_numeric env_15 15 0.5 40 []) by reflexivity.
  split; [reflexivity|]. simpl.
  assert (E : clip (15 + 40) 1 30 = 30).
  { unfold clip, Rmin, Rmax.
    destruct (Rle_dec (15 + 40) 1); destruct (Rle_dec _ 30); lra. }
  now rewrite E.
Qed.

(** On a numeric state, whatever the delta, the power [step] stores in
    the object is the clipped one, within [1, 30]. *)
Theorem step_stores_clipped_power (self : VANETEnv) (p rho delta_p : R)
    (rest : list R) :
  current_state self = Some [Num p; Num rho] ->
  exists new_p new_rho,
    current_state (fst (step (delta_p :: rest) self))
    = Some [Num new_p; Num new_rho]
    /\ new_p = clip (p + delta_p) 1 30
    /\ 1 <= new_p <= 30.
Proof.
  intros Hs. rewrite (step_numeric self p rho delta_p rest Hs). simpl.
  eexists. eexists. split; [reflexivity|]. split; [reflexivity|].
  apply clip_bounds.
Qed.

(** The stored power in state (15, 0.5) under the action [-3]. *)
Lemma step_stores_clipped_power_witness :
  exists new_p new_rho,
    current_state (fst (step [-3] env_15)) = Some [Num new_p; Num new_rho]
    /\ new_p = clip (15 + -3) 1 30
    /\ 1 <= new_p <= 30.
Proof.
  apply (step_stores_clipped_power env_15 15 0.5 (-3) []). reflexivity.
Defined.

(** C5. On a state with strictly positive power and density, [step]
    stores the density rho * (p / new_p)^(1/3), new_p being the clipped
    new power; it equals the old density when new_p = p, is strictly
    smaller when new_p > p, and is strictly positive. *)
Theorem density_update (self : VANETEnv) (p rho delta_p : R) (rest : list R) :
  0 < p -> 0 < rho ->
  current_state self = Some [Num p; Num rho] ->
  exists new_p new_rho,
    current_state (fst (step (delta_p :: rest) self))
    = Some [Num new_p; Num new_rho]
    /\ new_p = clip (p + delta_p) 1 30
    /\ new_rho = rho * Rpower (p / new_p) (1 / 3)
    /\ (new_p = p -> new_rho = rho)
    /\ (new_p > p -> new_rho < rho)
    /\ 0 < new_rho.
Proof.
  intros Hp Hrho Hs.
  rewrite (step_numeric self p rho delta_p rest Hs). simpl.
  pose proof (clip_bounds (p + delta_p)) as [Hlo _].
  set (new_p := clip (p + delta_p) 1 30) in *.
  pose proof (ratio_pos p new_p Hp Hlo) as Hratio.
  exists new_p, (rho * Rpower (p / new_p) (1 / 3)).
  split.
  { unfold np_power, beta. destruct (Rlt_dec 0 (p / new_p)); [reflexivity|].
    contradiction. }
  split; [reflexivity|]. split; [reflexivity|].
  split; [|split].
  - intros ->. replace (p / p) with 1 by (field; lra).
    rewrite Rpower_one_base. lra.
  - intros Hgt.
    assert (p / new_p < 1).
    { apply (Rmult_lt_reg_r new_p); [lra|].
      unfold Rdiv. rewrite Rmult_assoc, Rinv_l by lra. lra. }
    assert (Rpower (p / new_p) (1 / 3) < 1)
      by (apply Rpower_lt_one; lra).
    nra.
  - apply Rmult_lt_0_compat; [exact Hrho|]. unfold Rpower. apply exp_pos.
Qed.

(** The density update in state (15, 0.5) under the action [1]. *)
Lemma density_update_witness :
  exists new_p new_rho,
    current_state (fst (step [1] env_15)) = Some [Num new_p; Num new_rho]
    /\ new_p = clip (15 + 1) 1 30
    /\ new_rho = 0.5 * Rpower (15 / new_p) (1 / 3)
    /\ (new_p = 15 -> new_rho = 0.5)
    /\ (new_p > 15 -> new_rho < 0.5)
    /\ 0 < new_rho.
Proof.
  apply (density_update env_15 15 0.5 1 []); [lra | lra | reflexivity].
Defined.

End EnvProps.

Module LearnerProps.
Import Env Learner.
Local Open Scope R_scope.

Lemma discount_scan (gamma : R) (rewards : list R) :
  fold_left (discount_step gamma) (rev rewards) (0, [])
  = (hd 0 (returns gamma rewards), returns gamma rewards).
Proof.
  induction rewards as [|r rest IH]; [reflexivity|].
  simpl rev. rewrite fold_left_app, IH. simpl.
  unfold discount_step. simpl.
  assert (E : hd 0 (returns gamma rest) * gamma + r
              = r + gamma * hd 0 (returns gamma rest)) by ring.
  now rewrite E.
Qed.

Lemma discounted_is_returns (gamma : R) (rewards : list R) :
  discounted_rewards gamma rewards = returns gamma rewards.
Proof. unfold discounted_rewards. now rewrite discount_scan. Qed.

Lemma returns_length (gamma : R) (rewards : list R) :
  length (returns gamma rewards) = length rewards.
Proof. induction rewards; simpl; congruence. Qed.

Lemma hd_nth {A} (d : A) (l : list A) : hd d l = nth 0 l d.
Proof. now destruct l. Qed.

Lemma returns_backup (gamma : R) (rewards : list R) (t : nat) :
  (t < length rewards)%nat ->
  nth t (returns gamma rewards) 0
  = nth t rewards 0 + gamma * nth (S t) (returns gamma rewards) 0.
Proof.
  revert t. induction rewards as [|r rest IH]; intros t Ht.
  - simpl in Ht. lia.
  - destruct t as [|t].
    + simpl. now rewrite hd_nth.
    + simpl in Ht. change (nth (S t) (returns gamma (r :: rest)) 0)
        with (nth t (returns gamma rest) 0).
      rewrite IH by lia. reflexivity.
Qed.

Lemma np_mean_nonempty (xs : list R) :
  xs <> [] -> np_mean xs = ret (mean xs).
Proof. destruct xs; [congruence | reflexivity]. Qed.

Lemma np_std_nonempty (xs : list R) :
  xs <> [] -> np_std xs = ret (std xs).
Proof.
  intros Hne. unfold np_std. rewrite (np_mean_nonempty xs Hne). simpl.
  rewrite np_mean_nonempty; [reflexivity|].
  destruct xs; [congruence | discriminate].
Qed.

Lemma std_guard (xs : list R) : 0 < std xs + 1e-10.
Proof. unfold std. pose proof (sqrt_pos (mean (map (fun x => (x - mean xs) * (x - mean xs)) xs))). lra. Qed.

Lemma mapM_np_div (m d : R) (xs : list R) :
  d <> 0 ->
  mapM (fun x => np_div (x - m) d) xs = ret (map (fun x => (x - m) / d) xs).
Proof.
  intros Hd. induction xs as [|x xs IH]; [reflexivity|].
  simpl. unfold np_div at 1. destruct (Req_dec_T d 0); [contradiction|].
  simpl. now rewrite IH.
Qed.

Lemma normalize_nonempty (xs : list R) :
  xs <> [] ->
  normalize xs
  = ret (map (fun x => (x - mean xs) / (std xs + 1e-10)) xs).
Proof.
  intros Hne. unfold normalize.
  rewrite (np_mean_nonempty xs Hne), (np_std_nonempty xs Hne). simpl.
  apply mapM_np_div. pose proof (std_guard xs). lra.
Qed.

Lemma as_nums_numeric (xs : list R) : as_nums (map Num xs) = ret xs.
Proof.
  unfold as_nums. induction xs as [|x xs IH]; [reflexivity|].
  simpl. now rewrite IH.
Qed.

Lemma mapM_as_nums (xss : list (list R)) :
  mapM as_nums (map (map Num) xss) = ret xss.
Proof.
  induction xss as [|xs xss IH]; [reflexivity|].
  simpl. rewrite as_nums_numeric. simpl. now rewrite IH.
Qed.

Lemma dot_same_length (x w : list R) :
  length x = length w -> dot x w = ret (sum (zip_with Rmult x w)).
Proof. intros E. unfold dot. now rewrite E, Nat.eqb_refl. Qed.

Lemma mapM_dot (w : list R) (xss : list (list R)) :
  Forall (fun s => length s = length w) xss ->
  mapM (fun s => dot s w) xss
  = ret (map (fun s => sum (zip_with Rmult s w)) xss).
Proof.
  induction 1 as [|xs xss Hx _ IH]; [reflexivity|].
  simpl. rewrite (dot_same_length xs w Hx). simpl. now rewrite IH.
Qed.

Lemma at_index_lt {A} (a : list A) (i : nat) :
  (i < length a)%nat -> exists x, a !! i = Some x /\ at_index a i = ret x.
Proof.
  intros Hi. destruct (lookup_lt_is_Some_2 a i Hi) as [x Hx].
  exists x. unfold at_index. now rewrite Hx.
Qed.

Lemma policy_loop_returns (states : list (list R)) :
  forall (i : nat) (advantages : list R) (actions : list (list R))
         (self : PPOAgent),
    Forall (fun s => length s = length (policy_weights self)) states ->
    Forall (fun a => length a = 1%nat) actions ->
    (i + length states <= length advantages)%nat ->
    (i + length states <= length actions)%nat ->
    exists self',
      policy_loop i states advantages actions self = (self', ret tt)
      /\ value_weights self' = value_weights self
      /\ length (policy_weights self') = length (policy_weights self)
      /\ value_lr self' = value_lr self.
Proof.
  induction states as [|state rest IH]; intros i advantages actions self
    Hs Ha Hadv Hact.
  - exists self. repeat split.
  - inversion Hs as [|? ? Hlen Hrest]; subst. simpl in Hadv, Hact.
    destruct (at_index_lt advantages i) as (adv & _ & Eadv); [lia|].
    destruct (at_index_lt actions i) as (action & Hlook & Eact); [lia|].
    assert (Hone : length action = 1%nat).
    { rewrite Forall_lookup in Ha. exact (Ha i action Hlook). }
    destruct action as [|a [|? ?]]; try discriminate Hone.
    simpl. rewrite Eadv, Eact. simpl.
    rewrite (dot_same_length state _ Hlen). simpl.
    set (w := zip_with _ (policy_weights self) state).
    assert (Hw : length w = length (policy_weights self)).
    { unfold w. rewrite length_zip_with. lia. }
    destruct (IH (S i) advantages actions (set_policy_weights self w))
      as (self' & E & Hv & Hp & Hlr); simpl; try lia; try assumption.
    + rewrite Hw. exact Hrest.
    + exists self'. rewrite E. simpl in Hv, Hp, Hlr.
      repeat split; congruence.
Qed.

Lemma nth_zip_with {A B C} (f : A -> B -> C) (l1 : list A) (l2 : list B)
    (j : nat) (a : A) (b : B) (c : C) :
  (j < length l1)%nat -> (j < length l2)%nat ->
  nth j (zip_with f l1 l2) c = f (nth j l1 a) (nth j l2 b).
Proof.
  revert l2 j. induction l1 as [|x l1 IH]; intros [|y l2] [|j] H1 H2;
    simpl in *; try lia; [reflexivity|]. apply IH; lia.
Qed.

(** The value loop on states of the dimension of the weights: it
    returns, leaves the policy weights alone, and adds to each value
    weight the learning rate times the sum over the states of advantage
    times state component. *)
Lemma value_loop_returns (states : list (list R)) :
  forall (i : nat) (advantages : list R) (self : PPOAgent),
    Forall (fun s => length s = length (value_weights self)) states ->
    (i + length states <= length advantages)%nat ->
    exists self',
      value_loop i states advantages self = (self', ret tt)
      /\ policy_weights self' = policy_weights self
      /\ length (value_weights self') = length (value_weights self)
      /\ forall j, (j < length (value_weights self))%nat ->
           nth j (value_weights self') 0
           = nth j (value_weights self) 0
             + value_lr self
               * sum (map (fun k => nth (i + k) advantages 0
                                    * nth j (nth k states []) 0)
                        (seq 0 (length states))).
Proof.
  induction states as [|state rest IH]; intros i advantages self Hs Hadv.
  - exists self. repeat split. intros j _. simpl. ring.
  - inversion Hs as [|? ? Hlen Hrest]; subst. simpl in Hadv.
    destruct (at_index_lt advantages i) as (adv & Hadvi & Eadv); [lia|].
    simpl value_loop. rewrite Eadv. simpl bind.
    rewrite <- Hlen, Nat.eqb_refl.
    set (w := zip_with _ (value_weights self) state).
    assert (Hw : length w = length (value_weights self)).
    { unfold w. rewrite length_zip_with. lia. }
    destruct (IH (S i) advantages (set_value_weights self w))
      as (self' & E & Hp & Hl & Hv); simpl; [now rewrite Hw | lia |].
    exists self'. split; [exact E|]. simpl in Hp, Hl, Hv.
    split; [exact Hp|]. split; [congruence|].
    intros j Hj. rewrite Hv by lia.
    unfold w. rewrite (nth_zip_with _ _ _ j 0 0) by lia.
    change (seq 0 (length (state :: rest)))
      with (0%nat :: seq 1 (length rest)).
    rewrite <- seq_shift. cbn [map sum fold_right].
    rewrite map_map.
    assert (Em : forall l : list nat,
               map (fun k => nth (i + S k) advantages 0
                             * nth j (nth (S k) (state :: rest) []) 0) l
               = map (fun k => nth (S (i + k)) advantages 0
                               * nth j (nth k rest []) 0) l).
    { intros l. apply map_ext. intros k. now rewrite Nat.add_succ_r. }
    rewrite Em.
    assert (Ei : nth (i + 0) advantages 0 = adv).
    { rewrite Nat.add_0_r.
      apply nth_lookup_Some with (d := 0) in Hadvi. exact Hadvi. }
    rewrite Ei. ring.
Qed.

Lemma stored_float (l xs : list R) :
  mapM (stored (FloatRewards l)) xs = ret xs.
Proof.
  induction xs as [|x xs IH]; [reflexivity|]. simpl. now rewrite IH.
Qed.

Lemma stored_returns_float (gamma : R) (rewards : list R) :
  stored_returns gamma (FloatRewards rewards)
  = ret (discounted_rewards gamma rewards).
Proof. unfold stored_returns. apply stored_float. Qed.

(** What [update] does once the returns [G] are in the array, on a batch
    of the shapes [train] hands over. *)
Lemma update_from_returns (self : PPOAgent) (states : list (list R))
    (actions : list (list R)) (rewards : rewards_array) (G : list R)
    (next_states : list ndarray) :
  stored_returns (gamma self) rewards = ret G ->
  G <> [] ->
  well_shaped self states actions G ->
  let N := map (fun x => (x - mean G) / (std G + 1e-10)) G in
  let advantages :=
    zip_with Rminus N
      (map (fun s => sum (zip_with Rmult s (value_weights self))) states) in
  exists self1 self',
    policy_loop 0 states advantages actions self = (self1, ret tt)
    /\ update (map (map Num) states) actions rewards next_states self
       = (self', ret tt)
    /\ policy_weights self' = policy_weights self1
    /\ forall j, (j < length (value_weights self))%nat ->
         nth j (value_weights self') 0
         = nth j (value_weights self) 0
           + value_lr self
             * sum (map (fun k => nth k advantages 0
                                  * nth j (nth k states []) 0)
                      (seq 0 (length states))).
Proof.
  intros HG Hne (Hls & Hla & Hs & Ha & Hvw) N advantages.
  assert (Hadv : length advantages = length G).
  { unfold advantages, N.
    rewrite length_zip_with, !length_map. lia. }
  destruct (policy_loop_returns states 0 advantages actions self)
    as (self1 & E1 & Hv1 & Hp1 & Hlr); try assumption; simpl; try lia.
  destruct (value_loop_returns states 0 advantages self1)
    as (self' & E2 & Hp2 & _ & Hv2); simpl; [|lia|].
  { rewrite Hv1, Hvw. exact Hs. }
  exists self1, self'. split; [exact E1|].
  split; [|split; [exact Hp2|]].
  - unfold update. rewrite mapM_as_nums. simpl. rewrite HG. simpl.
    rewrite (normalize_nonempty _ Hne). simpl.
    rewrite mapM_dot by (rewrite Hvw; exact Hs). simpl.
    unfold np_sub. rewrite !length_map, Hls, Nat.eqb_refl. simpl.
    fold N. fold advantages. rewrite E1. exact E2.
  - intros j Hj. rewrite Hv2 by (rewrite Hv1; exact Hj).
    rewrite Hv1, Hlr. reflexivity.
Qed.

Lemma truncate_between (x : R) (z : Z) :
  0 <= x -> IZR z <= x < IZR z + 1 -> truncate x = z.
Proof.
  intros Hx Hz. unfold truncate. destruct (Rle_dec 0 x); [|contradiction].
  symmetry. apply Int_part_spec. lra.
Qed.

Lemma update_returns (self : PPOAgent) (states : list (list R))
    (actions : list (list R)) (rewards : list R)
    (next_states : list ndarray) :
  rewards <> [] -> well_shaped self states actions rewards ->
  exists self',
    update (map (map Num) states) actions (FloatRewards rewards)
      next_states self
    = (self', ret tt).
Proof.
  intros Hne (Hls & Hla & Hshape).
  destruct (update_from_returns self states actions (FloatRewards rewards)
              (discounted_rewards (gamma self) rewards) next_states)
    as (self1 & self' & _ & E & _).
  - apply stored_returns_float.
  - rewrite discounted_is_returns. destruct rewards; [congruence|discriminate].
  - unfold well_shaped. rewrite discounted_is_returns, returns_length.
    tauto.
  - eauto.
Qed.

(** C6, at a failing input: the batch of the integer rewards [2, 2] with
    the discount 0.99.  The scan carries 2 and then 2 * 0.99 + 2 = 3.98,
    but the array it writes to has the integer dtype of the rewards and
    keeps 2 and 3: the stored return at index 0 is 3, not
    r_0 + gamma * G_1 = 3.98 (which the same rewards given as floats do
    store).  [update] goes on with the truncated returns and returns. *)
Theorem update_truncates_integer_returns :
  let self := Learner.init (fun _ => 1) env_15 in
  gamma self = 0.99
  /\ stored_returns (gamma self) (IntRewards [2; 2]%Z) = ret [3; 2]
  /\ 3 <> 2 + gamma self * 2
  /\ stored_returns (gamma self) (FloatRewards [2; 2])
     = ret [(0 * 0.99 + 2) * 0.99 + 2; 0 * 0.99 + 2]
  /\ (0 * 0.99 + 2) * 0.99 + 2 = 2 + gamma self * 2
  /\ exists self',
       update (map (map Num) [[15; 0.5]; [16; 0.4]]) [[1]; [1]]
         (IntRewards [2; 2]%Z) [] self
       = (self', ret tt).
Proof.
  intros self.
  assert (HG : stored_returns (gamma self) (IntRewards [2; 2]%Z)
               = ret [3; 2]).
  { unfold stored_returns, discounted_rewards. simpl.
    rewrite (truncate_between ((0 * 0.99 + 2) * 0.99 + 2) 3) by lra.
    rewrite (truncate_between (0 * 0.99 + 2) 2) by lra.
    reflexivity. }
  split; [reflexivity|]. split; [exact HG|].
  split; [simpl; lra|]. split; [apply stored_returns_float|].
  split; [simpl; lra|].
  destruct (update_from_returns self [[15; 0.5]; [16; 0.4]] [[1]; [1]]
              (IntRewards [2; 2]%Z) [3; 2] [])
    as (self1 & self' & _ & E & _).
  - exact HG.
  - discriminate.
  - unfold well_shaped. simpl. repeat split; repeat constructor.
  - eauto.
Qed.

(** For a non-empty batch of float rewards, of the shapes [train] hands
    over: the array of returns [update] fills satisfies
    G_t = r_t + gamma * G_(t+1), the return after the last element being
    0; it is normalized by subtracting its mean and dividing by its
    standard deviation plus 1e-10, a divisor that is strictly positive;
    and [update] returns, leaving the policy weights that the policy loop
    computes from advantages = normalized returns - value estimates, and
    each value weight raised by the learning rate times the sum over the
    batch of advantage times state component. *)
Theorem update_of_a_float_batch (self : PPOAgent)
    (states : list (list R)) (actions : list (list R)) (rewards : list R)
    (next_states : list ndarray) :
  rewards <> [] ->
  well_shaped self states actions rewards ->
  let G := discounted_rewards (gamma self) rewards in
  let N := map (fun x => (x - mean G) / (std G + 1e-10)) G in
  let advantages :=
    zip_with Rminus N
      (map (fun s => sum (zip_with Rmult s (value_weights self))) states) in
  stored_returns (gamma self) (FloatRewards rewards) = ret G
  /\ (forall t, (t < length rewards)%nat ->
        nth t G 0 = nth t rewards 0 + gamma self * nth (S t) G 0)
  /\ length G = length rewards
  /\ 0 < std G + 1e-10
  /\ normalize G = ret N
  /\ exists self1 self',
       policy_loop 0 states advantages actions self = (self1, ret tt)
       /\ update (map (map Num) states) actions (FloatRewards rewards)
            next_states self
          = (self', ret tt)
       /\ policy_weights self' = policy_weights self1
       /\ forall j, (j < length (value_weights self))%nat ->
            nth j (value_weights self') 0
            = nth j (value_weights self) 0
              + value_lr self
                * sum (map (fun k => nth k advantages 0
                                     * nth j (nth k states []) 0)
                         (seq 0 (length states))).
Proof.
  intros Hne Hshape G N advantages.
  assert (HGne : G <> []).
  { unfold G. rewrite discounted_is_returns.
    destruct rewards; [congruence | discriminate]. }
  split; [apply stored_returns_float|].
  split; [|split; [|split; [|split]]].
  - intros t Ht. unfold G. rewrite discounted_is_returns.
    now apply returns_backup.
  - unfold G. rewrite discounted_is_returns. apply returns_length.
  - apply std_guard.
  - apply normalize_nonempty. exact HGne.
  - apply (update_from_returns self states actions (FloatRewards rewards)
             G next_states).
    + apply stored_returns_float.
    + exact HGne.
    + destruct Hshape as (Hls & Hla & Hrest). unfold well_shaped, G.
      rewrite discounted_is_returns, returns_length. tauto.
Qed.

(** A batch of two transitions with the same float reward, for a learner
    whose weights were all drawn as 1. *)
Lemma update_of_a_float_batch_witness :
  let self := Learner.init (fun _ => 1) env_15 in
  let states := [[15; 0.5]; [16; 0.4]] in
  let G := discounted_rewards (gamma self) [2; 2] in
  let N := map (fun x => (x - mean G) / (std G + 1e-10)) G in
  let advantages :=
    zip_with Rminus N
      (map (fun s => sum (zip_with Rmult s (value_weights self))) states) in
  stored_returns (gamma self) (FloatRewards [2; 2]) = ret G
  /\ (forall t, (t < 2)%nat ->
        nth t G 0 = nth t [2; 2] 0 + gamma self * nth (S t) G 0)
  /\ length G = 2%nat
  /\ 0 < std G + 1e-10
  /\ normalize G = ret N
  /\ exists self1 self',
       policy_loop 0 states advantages [[1]; [1]] self = (self1, ret tt)
       /\ update (map (map Num) states) [[1]; [1]] (FloatRewards [2; 2])
            [] self
          = (self', ret tt)
       /\ policy_weights self' = policy_weights self1
       /\ forall j, (j < length (value_weights self))%nat ->
            nth j (value_weights self') 0
            = nth j (value_weights self) 0
              + value_lr self
                * sum (map (fun k => nth k advantages 0
                                     * nth j (nth k states []) 0)
                         (seq 0 (length states))).
Proof.
  apply (update_of_a_float_batch
           (Learner.init (fun _ => 1) env_15)
           [[15; 0.5]; [16; 0.4]] [[1]; [1]] [2; 2] []).
  - discriminate.
  - unfold well_shaped. simpl. repeat split; repeat constructor.
Defined.

End LearnerProps.

Module OptimizerProps.
Import Env Learner Training Optimizer.
Local Open Scope R_scope.

Lemma random_choice_singleton {A} (x : A) (pick : nat) :
  random_choice [x] pick = ret x.
Proof. unfold random_choice. simpl length. now rewrite Nat.mod_1_r. Qed.

(** [reset] on the pool of one record a pass builds. *)
Lemma reset_singleton (pick : nat) (self : VANETEnv) (car_log : json_object) :
  Env.car_logs self = [car_log] ->
  reset pick self
  = match
      p <- getitem car_log "power_transmission" ;;
      rho <- getitem car_log "vehicle_density" ;;
      ret (np_array2 p rho)
    with
    | inl e => (self, inl e)
    | inr s => (set_current_state self s, inr s)
    end.
Proof.
  intros Hlogs. unfold reset. rewrite Hlogs, random_choice_singleton.
  reflexivity.
Qed.

(** A pass on a record without 'vehicle_density' (or without
    'power_transmission') ends in [reset], with the KeyError of the first
    of the two keys that is missing. *)
Lemma process_car_log_key_error (pick : nat -> nat) (normal randn : nat -> R)
    (fuel : nat) (self : Server) (car_log : json_object) (key : string) :
  (p <- getitem car_log "power_transmission" ;;
   rho <- getitem car_log "vehicle_density" ;;
   ret (np_array2 p rho)) = inl (KeyError key) ->
  process_car_log pick normal randn fuel self car_log
  = ({| events := []; commands := [] |}, inl (KeyError key)).
Proof.
  intros Hkey. unfold process_car_log, train. simpl seq.
  unfold episodes, mbind at 1 2, on_env, on_agent. simpl agent.
  simpl Learner.env.
  rewrite (reset_singleton _ _ car_log) by reflexivity.
  rewrite Hkey. reflexivity.
Qed.

(** A pass on a record that has both keys, as numbers, gets to [step]
    and ends there. *)
Lemma process_car_log_index_error (pick : nat -> nat)
    (normal randn : nat -> R) (fuel : nat) (self : Server)
    (car_log : json_object) (p : Z) (q : Q) :
  car_log !! "power_transmission" = Some (VInt p) ->
  car_log !! "vehicle_density" = Some (VFloat q) ->
  process_car_log pick normal randn (S fuel) self car_log
  = ({| events := []; commands := [] |}, inl (IndexError string_index_msg)).
Proof.
  intros Hp Hrho. unfold process_car_log, train. simpl seq.
  unfold episodes, mbind at 1 2, on_env, on_agent. simpl agent.
  simpl Learner.env.
  rewrite (reset_singleton _ _ car_log) by reflexivity.
  unfold getitem. rewrite Hp, Hrho. simpl.
  unfold mbind, draw_action, on_env, on_agent. simpl.
  reflexivity.
Qed.

(** C9. For a telemetry record (one that carries 'power_transmission')
    without a 'vehicle_density' key, [reset] raises the KeyError of
    reading log['vehicle_density']; the connection handler catches it and
    prints it, no actuation command is issued, and the record stays
    appended to the server's list of car logs. *)
Theorem handler_missing_density (pick : nat -> nat) (normal randn : nat -> R)
    (fuel : nat) (self : Server) (car_log : json_object) (v : pyval) :
  car_log !! "vehicle_density" = None ->
  car_log !! "power_transmission" = Some v ->
  snd (reset (pick O)
         (Env.init [car_log]
            (get car_log "ieee_standard" (VStr "802.11g"))
            (get car_log "bandwidth" (VInt 20))))
  = inl (KeyError "vehicle_density")
  /\ handle_client pick normal randn fuel self (Json (JObject car_log))
     = ({| car_logs := car_logs self ++ [JObject car_log];
           net := net self |},
        {| events :=
             [PrintErrorHandling (KeyError "vehicle_density"); SocketClose];
           commands := [] |}).
Proof.
  intros Hrho Hp.
  assert (Hkey :
    (p <- getitem car_log "power_transmission" ;;
     rho <- getitem car_log "vehicle_density" ;;
     ret (np_array2 p rho)) = inl (KeyError "vehicle_density")).
  { unfold getitem. now rewrite Hp, Hrho. }
  split.
  - rewrite (reset_singleton _ _ car_log) by reflexivity. now rewrite Hkey.
  - unfold handle_client.
    rewrite (process_car_log_key_error pick normal randn fuel _ car_log
               "vehicle_density" Hkey).
    reflexivity.
Qed.

(** A record of the external JSON schema's power and CBR fields only. *)
Lemma handler_missing_density_witness :
  let car_log : json_object :=
    list_to_map [ ("car_id", VStr "car1"); ("power_transmission", VFloat 12.5);
                  ("channel_busy_ratio", VFloat 0.4) ] in
  snd (reset O
         (Env.init [car_log]
            (get car_log "ieee_standard" (VStr "802.11g"))
            (get car_log "bandwidth" (VInt 20))))
  = inl (KeyError "vehicle_density")
  /\ handle_client (fun _ => O) (fun _ => 0) (fun _ => 0) 1 server_0
       (Json (JObject car_log))
     = ({| car_logs := [JObject car_log]; net := None |},
        {| events :=
             [PrintErrorHandling (KeyError "vehicle_density"); SocketClose];
           commands := [] |}).
Proof.
  apply (handler_missing_density (fun _ => O) (fun _ => 0) (fun _ => 0) 1
           server_0
           (list_to_map
              [ ("car_id", VStr "car1"); ("power_transmission", VFloat 12.5);
                ("channel_busy_ratio", VFloat 0.4) ])
           (VFloat 12.5)); reflexivity.
Defined.

(** C7, at the scenario's record: whatever the random draws, the pass
    raises the KeyError of 'vehicle_density' in [reset] and issues no
    actuation command; and with a vehicle density supplied it raises the
    IndexError of [step], again without a command. *)
Theorem scenario_issues_no_command (pick : nat -> nat)
    (normal randn : nat -> R) (fuel : nat) :
  handle_client pick normal randn fuel server_0
    (Json (JObject scenario_record))
  = ({| car_logs := [JObject scenario_record]; net := None |},
     {| events :=
          [PrintErrorHandling (KeyError "vehicle_density"); SocketClose];
        commands := [] |})
  /\ handle_client pick normal randn (S fuel) server_0
       (Json (JObject scenario_record_with_density))
     = ({| car_logs := [JObject scenario_record_with_density]; net := None |},
        {| events :=
             [PrintErrorHandling (IndexError string_index_msg); SocketClose];
           commands := [] |}).
Proof.
  split.
  - unfold handle_client.
    rewrite (process_car_log_key_error pick normal randn fuel _
               scenario_record "vehicle_density"); reflexivity.
  - unfold handle_client.
    rewrite (process_car_log_index_error pick normal randn fuel _
               scenario_record_with_density 15 0.5); reflexivity.
Qed.

End OptimizerProps.

Module CollectorProps.
Import Collector.
Local Open Scope Q_scope.

Section Float.

Variable float_of_str : string -> option float.

Lemma process_data_app (data_list : list json_object) (done : list json_object) :
  fold_left (fun processed record =>
               processed ++ [process_record float_of_str record])
    data_list done
  = done ++ map (process_record float_of_str) data_list.
Proof.
  revert done. induction data_list as [|record rest IH]; intros done; simpl.
  - now rewrite app_nil_r.
  - rewrite IH, <- app_assoc. reflexivity.
Qed.

Lemma process_data_map (data_list : list json_object) :
  process_data float_of_str data_list
  = map (process_record float_of_str) data_list.
Proof. unfold process_data. now rewrite process_data_app. Qed.

Lemma originals_converted (record : json_object) (p d : float) :
  py_float float_of_str (get record "power_transmission" (VInt 15)) = inr p ->
  py_float float_of_str (get record "data_rate" (VInt 18)) = inr d ->
  originals float_of_str record = (p, d).
Proof. intros Hp Hd. unfold originals. now rewrite Hp, Hd. Qed.

Lemma originals_failed (record : json_object) :
  (exists e, py_float float_of_str
               (get record "power_transmission" (VInt 15)) = inl e)
  \/ (exists e, py_float float_of_str
                  (get record "data_rate" (VInt 18)) = inl e) ->
  originals float_of_str record = (Finite 15, Finite 18).
Proof.
  intros [[e He]|[e He]]; unfold originals; rewrite He.
  - reflexivity.
  - destruct (py_float float_of_str (get record "power_transmission" _));
      reflexivity.
Qed.

Lemma missing_power_is_15 (record : json_object) :
  record !! "power_transmission" = None ->
  py_float float_of_str (get record "power_transmission" (VInt 15))
  = inr (Finite 15).
Proof. intros Hnone. unfold get. rewrite Hnone. reflexivity. Qed.

Lemma missing_rate_is_18 (record : json_object) :
  record !! "data_rate" = None ->
  py_float float_of_str (get record "data_rate" (VInt 18)) = inr (Finite 18).
Proof. intros Hnone. unfold get. rewrite Hnone. reflexivity. Qed.

Lemma process_record_fields (record : json_object) :
  process_record float_of_str record !! "optimized_power"
  = Some (optimized_power (fst (originals float_of_str record)))
  /\ process_record float_of_str record !! "optimized_data_rate"
     = Some (optimized_data_rate (snd (originals float_of_str record)))
  /\ (forall key : string,
         key <> "optimized_power" -> key <> "optimized_data_rate" ->
         process_record float_of_str record !! key = record !! key).
Proof.
  unfold process_record.
  destruct (originals float_of_str record) as [p d]. simpl.
  split; [|split].
  - rewrite lookup_insert_ne by discriminate. apply lookup_insert_eq.
  - apply lookup_insert_eq.
  - intros key Hp Hd. now rewrite !lookup_insert_ne by congruence.
Qed.

(** C8 (as amended). [process_data] returns as many records as it was
    given, in their order; the record at each position keeps every field
    other than optimized_power and optimized_data_rate, and has these two
    set: to round(power * 0.9, 2) and round(rate * 1.1, 2), computed on
    floats, when [float] converts power_transmission and data_rate both, a
    missing field counting as its default (15, 18); and to
    round(15 * 0.9, 2) = 13.5 and round(18 * 1.1, 2) = 19.8, both of them,
    as soon as [float] raises on either field (a value that is no number
    and no numeric string, or an integer too large for a float). *)
Theorem process_data_spec (data_list : list json_object) :
  length (process_data float_of_str data_list) = length data_list
  /\ (forall (i : nat) (record : json_object),
        data_list !! i = Some record ->
        exists record' : json_object,
          process_data float_of_str data_list !! i = Some record'
          /\ (forall key : string,
                key <> "optimized_power" -> key <> "optimized_data_rate" ->
                record' !! key = record !! key)
          /\ (forall p d : float,
                py_float float_of_str
                  (get record "power_transmission" (VInt 15)) = inr p ->
                py_float float_of_str
                  (get record "data_rate" (VInt 18)) = inr d ->
                record' !! "optimized_power"
                = Some (float_value (py_round2 (mul_literal p double_0_9)))
                /\ record' !! "optimized_data_rate"
                   = Some (float_value
                             (py_round2 (mul_literal d double_1_1))))
          /\ ((exists e, py_float float_of_str
                           (get record "power_transmission" (VInt 15))
                         = inl e)
              \/ (exists e, py_float float_of_str
                              (get record "data_rate" (VInt 18)) = inl e) ->
              record' !! "optimized_power" = Some (VFloat (27 # 2))
              /\ record' !! "optimized_data_rate"
                 = Some (float_value (to_double (198 # 10)))))
  /\ (forall record : json_object,
        (record !! "power_transmission" = None ->
         py_float float_of_str (get record "power_transmission" (VInt 15))
         = inr (Finite 15))
        /\ (record !! "data_rate" = None ->
            py_float float_of_str (get record "data_rate" (VInt 18))
            = inr (Finite 18)))
  /\ to_double (9 # 10) = Finite double_0_9
  /\ to_double (11 # 10) = Finite double_1_1.
Proof.
  rewrite process_data_map. split; [|split; [|split; [|split]]].
  - apply length_map.
  - intros i record Hi.
    exists (process_record float_of_str record).
    destruct (process_record_fields record) as (Hp & Hd & Hkeep).
    split; [|split; [|split]].
    + rewrite list_lookup_fmap, Hi. reflexivity.
    + exact Hkeep.
    + intros p d Ep Ed.
      rewrite Hp, Hd, (originals_converted record p d Ep Ed). now split.
    + intros Hfail.
      rewrite Hp, Hd, (originals_failed record Hfail).
      split; vm_compute; reflexivity.
  - intros record. split.
    + apply missing_power_is_15.
    + apply missing_rate_is_18.
  - vm_compute. reflexivity.
  - vm_compute. reflexivity.
Qed.

End Float.

(** The record with a [null] data rate: both fields fall back.  The
    scenario's record, power 15 and data rate 18: both convert. *)
Lemma process_data_spec_witness :
  (exists record' : json_object,
      process_data (fun _ => None) [null_rate_record] !! 0%nat = Some record'
      /\ record' !! "optimized_power" = Some (VFloat (27 # 2))
      /\ record' !! "optimized_data_rate"
         = Some (float_value (to_double (198 # 10))))
  /\ exists record' : json_object,
       process_data (fun _ => None) [Optimizer.scenario_record] !! 0%nat
       = Some record'
       /\ record' !! "optimized_power"
          = Some (float_value (py_round2 (mul_literal (Finite 15) double_0_9)))
       /\ record' !! "optimized_data_rate"
          = Some (float_value
                    (py_round2 (mul_literal (Finite 18) double_1_1))).
Proof.
  split.
  - destruct (process_data_spec (fun _ => None) [null_rate_record])
      as (_ & Hat & _).
    destruct (Hat 0%nat null_rate_record eq_refl)
      as (record' & E & _ & _ & Hf).
    exists record'. split; [exact E|].
    apply Hf. right. exists (TypeError
      "float() argument must be a string or a real number"). reflexivity.
  - destruct (process_data_spec (fun _ => None) [Optimizer.scenario_record])
      as (_ & Hat & _).
    destruct (Hat 0%nat Optimizer.scenario_record eq_refl)
      as (record' & E & _ & Hc & _).
    exists record'. split; [exact E|].
    apply (Hc (Finite 15) (Finite 18)); reflexivity.
Defined.

(** C8, the claim as stated fails: with power_transmission = 20 and a
    data_rate that does not convert, the code sets optimized_power to
    round(15 * 0.9, 2) = 13.5, where the claim's per-field default gives
    round(20 * 0.9, 2) = 18. *)
Lemma process_data_claim_counterexample :
  (exists record' : json_object,
      process_data (fun _ => None) [null_rate_record] = [record']
      /\ record' !! "optimized_power" = Some (VFloat (27 # 2)))
  /\ process_record_per_field (fun _ => None) null_rate_record
     !! "optimized_power" = Some (VFloat 18)
  /\ ~ (27 # 2 == 18).
Proof.
  split; [|split].
  - eexists. split; [reflexivity|]. vm_compute. reflexivity.
  - vm_compute. reflexivity.
  - intros E. discriminate E.
Qed.

End CollectorProps.

(** ** Rate Table: fixed-rate standards, and the shape of the tables *)

Module RateTableEdges.
Import RateTable RateTableProps.

Lemma subscript_out_of_range {A} (l : list A) (i : Z) :
  (Z.of_nat (length l) <= i \/ i < - Z.of_nat (length l))%Z ->
  subscript l (VInt i) = inl (IndexError "list index out of range").
Proof.
  intros Hi. unfold subscript.
  destruct (Z.ltb_spec i 0).
  - destruct (Z.leb_spec 0 (i + Z.of_nat (length l))); [lia|]. reflexivity.
  - destruct (Z.leb_spec 0 i); [|lia].
    destruct (Z.ltb_spec i (Z.of_nat (length l))); [lia|]. reflexivity.
Qed.

Lemma subscript_at {A} (l : list A) (i : Z) (x : A) :
  (0 <= i)%Z -> l !! Z.to_nat i = Some x -> subscript l (VInt i) = ret x.
Proof.
  intros Hi Hx. unfold subscript.
  pose proof (lookup_lt_Some _ _ _ Hx) as Hlt.
  destruct (Z.ltb_spec i 0); [lia|].
  destruct (Z.leb_spec 0 i); [|lia].
  destruct (Z.ltb_spec i (Z.of_nat (length l))); [|lia].
  simpl. now rewrite Hx.
Qed.

Lemma subscript_negative {A} (l : list A) (i : Z) :
  (- Z.of_nat (length l) <= i < 0)%Z ->
  subscript l (VInt i) = subscript l (VInt (i + Z.of_nat (length l))).
Proof.
  intros Hi. unfold subscript.
  destruct (Z.ltb_spec i 0); [|lia].
  destruct (Z.ltb_spec (i + Z.of_nat (length l)) 0); [lia|]. reflexivity.
Qed.

(** The standards of the table that are not bandwidth-adaptive take the
    [else] branch of line 116. *)
Lemma lookup_fixed_rate (s : string) (tbl : list (list pyval))
    (mcs_index bandwidth : pyval) :
  mcs_tables !! s = Some tbl -> ~ In s bandwidth_adaptive ->
  lookup s mcs_index bandwidth
  = ([], entry <- subscript tbl mcs_index ;; unpack2 entry)
  /\ Forall (fun entry => exists m r, entry = [VStr m; VFloat r]) tbl.
Proof.
  intros Ht Hs. pose proof (tables_items s tbl Ht) as Hin.
  unfold lookup, get_modulation_and_datarate. simpl tables_get.
  unfold ret at 1. rewrite Ht.
  unfold mcs_tables_items in Hin.
  repeat (apply elem_of_cons in Hin as [Hin|Hin];
          [ injection Hin as -> ->;
            first [ exfalso; apply Hs; simpl; tauto
                  | split; [reflexivity | repeat constructor; eauto] ] | ]).
  now apply elem_of_nil in Hin.
Qed.

(** For a standard of the table that is not bandwidth-adaptive (802.11a,
    b, g, p) and an integer index within [-n, n), n the length of its
    table, the lookup returns the modulation and the rate of the entry at
    that position, counted from the end when the index is negative,
    whatever the bandwidth; nothing is printed or raised. *)
Theorem fixed_rate_lookup_in_range (s : string) (tbl : list (list pyval))
    (i : Z) (bandwidth : pyval) :
  mcs_tables !! s = Some tbl -> ~ In s bandwidth_adaptive ->
  (- Z.of_nat (length tbl) <= i < Z.of_nat (length tbl))%Z ->
  exists m r,
    tbl !! Z.to_nat (if (i <? 0)%Z then i + Z.of_nat (length tbl) else i)%Z
    = Some [VStr m; VFloat r]
    /\ lookup s (VInt i) bandwidth = ([], inr (VStr m, VFloat r)).
Proof.
  intros Ht Hs Hi.
  destruct (lookup_fixed_rate s tbl (VInt i) bandwidth Ht Hs) as [-> Hpairs].
  set (k := (if (i <? 0)%Z then i + Z.of_nat (length tbl) else i)%Z).
  assert (Hk : (0 <= k < Z.of_nat (length tbl))%Z).
  { unfold k. destruct (Z.ltb_spec i 0); lia. }
  destruct (lookup_lt_is_Some_2 tbl (Z.to_nat k)) as [entry Hentry]; [lia|].
  rewrite Forall_lookup in Hpairs.
  destruct (Hpairs _ _ Hentry) as (m & r & ->).
  exists m, r. split; [exact Hentry|].
  assert (E : subscript tbl (VInt i) = ret [VStr m; VFloat r]).
  { unfold k in *. destruct (Z.ltb_spec i 0).
    - rewrite subscript_negative by lia. apply subscript_at; [lia|exact Hentry].
    - apply subscript_at; [lia|exact Hentry]. }
  now rewrite E.
Qed.

(** 802.11b at index -1: the last entry, (CCK, 11.0). *)
Lemma fixed_rate_lookup_in_range_witness :
  exists m r,
    table_b !! Z.to_nat (-1 + 4) = Some [VStr m; VFloat r]
    /\ lookup "802.11b" (VInt (-1)) (VInt 40) = ([], inr (VStr m, VFloat r)).
Proof.
  apply (fixed_rate_lookup_in_range "802.11b" table_b (-1) (VInt 40)).
  - reflexivity.
  - simpl. intros [H|[H|[H|[H|[]]]]]; discriminate H.
  - simpl. lia.
Defined.

(** For a standard of the table that is not bandwidth-adaptive, an
    integer index at or beyond the length of its table, or below minus
    that length, raises IndexError: the lookup returns no sentinel. *)
Theorem fixed_rate_lookup_out_of_range (s : string)
    (tbl : list (list pyval)) (i : Z) (bandwidth : pyval) :
  mcs_tables !! s = Some tbl -> ~ In s bandwidth_adaptive ->
  (Z.of_nat (length tbl) <= i \/ i < - Z.of_nat (length tbl))%Z ->
  lookup s (VInt i) bandwidth
  = ([], inl (IndexError "list index out of range")).
Proof.
  intros Ht Hs Hi.
  destruct (lookup_fixed_rate s tbl (VInt i) bandwidth Ht Hs) as [-> _].
  now rewrite subscript_out_of_range.
Qed.

(** 802.11p has the indices 0..7: index 8 raises. *)
Lemma fixed_rate_lookup_out_of_range_witness :
  lookup "802.11p" (VInt 8) (VInt 10)
  = ([], inl (IndexError "list index out of range")).
Proof.
  apply (fixed_rate_lookup_out_of_range "802.11p" table_p 8 (VInt 10)).
  - reflexivity.
  - simpl. intros [H|[H|[H|[H|[]]]]]; discriminate H.
  - simpl. lia.
Defined.

(** For a standard of the table that is not bandwidth-adaptive, an index
    that is not an integer (a float such as 3.0, a string, null, a list)
    raises TypeError. *)
Theorem fixed_rate_lookup_non_integer (s : string)
    (tbl : list (list pyval)) (mcs_index bandwidth : pyval) :
  mcs_tables !! s = Some tbl -> ~ In s bandwidth_adaptive ->
  not_an_integer mcs_index ->
  lookup s mcs_index bandwidth
  = ([], inl (TypeError "list indices must be integers or slices")).
Proof.
  intros Ht Hs Hi.
  destruct (lookup_fixed_rate s tbl mcs_index bandwidth Ht Hs) as [-> _].
  destruct mcs_index; simpl in Hi; try contradiction; reflexivity.
Qed.

(** 802.11g at the float index 3.0. *)
Lemma fixed_rate_lookup_non_integer_witness :
  lookup "802.11g" (VFloat 3.0) (VInt 20)
  = ([], inl (TypeError "list indices must be integers or slices")).
Proof.
  apply (fixed_rate_lookup_non_integer "802.11g" table_g).
  - reflexivity.
  - simpl. intros [H|[H|[H|[H|[]]]]]; discriminate H.
  - exact I.
Defined.

Lemma py_eq_int_ne (a b : Z) : a <> b -> py_eq (VInt a) (VInt b) = false.
Proof.
  intros Hne. simpl. destruct (Qeq_bool _ _) eqn:E; [|reflexivity].
  apply Qeq_bool_iff in E. unfold Qeq in E. simpl in E. lia.
Qed.

Lemma lookup_unknown_prints (s : string) (mcs_index bandwidth : pyval) :
  mcs_tables !! s = None ->
  fst (lookup s mcs_index bandwidth) = [NoMcsTable (VStr s)].
Proof.
  intros Hnone. unfold lookup, get_modulation_and_datarate. simpl.
  now rewrite Hnone.
Qed.

(** An index from 10 on, or a negative one, is in no adaptive table. *)
Lemma scan_beyond (s : string) (tbl : list (list pyval)) (i : Z)
    (bandwidth : pyval) :
  In s bandwidth_adaptive -> mcs_tables !! s = Some tbl ->
  (10 <= i \/ i < 0)%Z ->
  scan tbl (VInt i) bandwidth = ret (VNone, VNone).
Proof.
  intros Hs Ht Hi. apply scan_no_match.
  - exact (adaptive_indexed s tbl Hs Ht).
  - unfold matches_no_entry.
    destruct (adaptive_tables s tbl Hs Ht)
      as [[_ ->]|[[_ ->]|[[_ ->]|[_ ->]]]];
      repeat constructor; intros e0 H; injection H as <-;
      apply py_eq_int_ne; lia.
Qed.

Lemma index_cases (i : Z) :
  (0 <= i)%Z ->
  (i = 0 \/ i = 1 \/ i = 2 \/ i = 3 \/ i = 4 \/ i = 5 \/ i = 6 \/ i = 7
   \/ i = 8 \/ i = 9 \/ 10 <= i)%Z.
Proof. lia. Qed.

(** Closes a goal from two lookups at concrete indices of one table. *)
Ltac compare_rates Hi Hj :=
  cbn in Hi, Hj;
  try destruct (py_eq _ (VInt 20));
  first [ discriminate Hi | discriminate Hj
        | injection Hi as <- <-; injection Hj as <- <-; reflexivity ].

Ltac compare_fixed_rates Hi Hj :=
  vm_compute in Hi, Hj;
  first [ discriminate Hi | discriminate Hj
        | injection Hi as <- <-; injection Hj as <- <-; reflexivity ].

(** In every table the nominal data rate grows with the index: two
    lookups of one standard at one bandwidth, at indices 0 <= i < j, that
    both return a numeric rate return a strictly smaller one at i. *)
Theorem rate_increases_with_index (s : string) (i j : Z)
    (bandwidth m m' : pyval) (r r' : Q) :
  (0 <= i < j)%Z ->
  lookup s (VInt i) bandwidth = ([], inr (m, VFloat r)) ->
  lookup s (VInt j) bandwidth = ([], inr (m', VFloat r')) ->
  (r < r')%Q.
Proof.
  intros Hij Hi Hj.
  destruct (mcs_tables !! s) as [tbl|] eqn:Ht.
  2:{ pose proof (lookup_unknown_prints s (VInt i) bandwidth Ht) as E.
      rewrite Hi in E. discriminate E. }
  destruct (in_dec string_dec s bandwidth_adaptive) as [Hs|Hs].
  - rewrite (lookup_adaptive s tbl _ _ Hs Ht) in Hi.
    rewrite (lookup_adaptive s tbl _ _ Hs Ht) in Hj.
    injection Hi as Hi. injection Hj as Hj.
    destruct (index_cases j ltac:(lia))
      as [->|[->|[->|[->|[->|[->|[->|[->|[->|[->|Hbig]]]]]]]]]];
      [ | | | | | | | | | |
        rewrite (scan_beyond s tbl j bandwidth Hs Ht) in Hj by lia;
        discriminate Hj ];
      (destruct (index_cases i ltac:(lia))
        as [->|[->|[->|[->|[->|[->|[->|[->|[->|[->|Hbig]]]]]]]]]];
       try lia);
      destruct (adaptive_tables s tbl Hs Ht)
        as [[_ ->]|[[_ ->]|[[_ ->]|[_ ->]]]];
      compare_rates Hi Hj.
  - destruct (lookup_fixed_rate s tbl (VInt i) bandwidth Ht Hs) as [Ei _].
    destruct (lookup_fixed_rate s tbl (VInt j) bandwidth Ht Hs) as [Ej _].
    rewrite Ei in Hi. rewrite Ej in Hj. clear Ei Ej.
    apply pair_equal_spec in Hi as [_ Hi].
    apply pair_equal_spec in Hj as [_ Hj].
    pose proof (tables_items s tbl Ht) as Hin.
    unfold mcs_tables_items in Hin.
    repeat (apply elem_of_cons in Hin as [Hin|Hin];
            [ injection Hin as -> ->;
              first
                [ exfalso; apply Hs; simpl; tauto
                | destruct (index_cases j ltac:(lia))
                    as [->|[->|[->|[->|[->|[->|[->|[->|[->|[->|Hbig]]]]]]]]]];
                  [ | | | | | | | | | |
                    rewrite subscript_out_of_range in Hj
                      by (simpl; lia);
                    discriminate Hj ];
                  (destruct (index_cases i ltac:(lia))
                    as [->|[->|[->|[->|[->|[->|[->|[->|[->|[->|Hbig]]]]]]]]]];
                   try lia);
                  compare_fixed_rates Hi Hj ] | ]).
    now apply elem_of_nil in Hin.
Qed.

(** 802.11ax at 40 MHz: index 2 gives 45.0, index 7 gives 150.0. *)
Lemma rate_increases_with_index_witness :
  lookup "802.11ax" (VInt 2) (VInt 40) = ([], inr (VStr "QPSK", VFloat 45.0))
  /\ lookup "802.11ax" (VInt 7) (VInt 40)
     = ([], inr (VStr "64-QAM", VFloat 150.0))
  /\ (45.0 < 150.0)%Q.
Proof.
  split; [reflexivity|]. split; [reflexivity|].
  apply (rate_increases_with_index "802.11ax" 2 7 (VInt 40)
           (VStr "QPSK") (VStr "64-QAM") 45.0 150.0);
    [lia | reflexivity | reflexivity].
Defined.

(** In a bandwidth-adaptive table the rate returned for a bandwidth other
    than 20 is strictly higher than the one returned for 20, at the same
    index and with the same modulation, whenever both are numbers. *)
Theorem wider_band_rate_is_higher (s : string) (i : Z)
    (bandwidth m m' : pyval) (r r' : Q) :
  In s bandwidth_adaptive -> ~ is_20 bandwidth ->
  lookup s (VInt i) (VInt 20) = ([], inr (m, VFloat r)) ->
  lookup s (VInt i) bandwidth = ([], inr (m', VFloat r')) ->
  (r < r')%Q /\ m = m'.
Proof.
  intros Hs Hbw Hn Hw. apply py_eq_not_20 in Hbw.
  destruct (mcs_tables !! s) as [tbl|] eqn:Ht.
  2:{ pose proof (lookup_unknown_prints s (VInt i) bandwidth Ht) as E.
      rewrite Hw in E. discriminate E. }
  rewrite (lookup_adaptive s tbl _ _ Hs Ht) in Hn.
  rewrite (lookup_adaptive s tbl _ _ Hs Ht) in Hw.
  injection Hn as Hn. injection Hw as Hw.
  destruct (Z.lt_ge_cases i 0) as [Hneg|Hpos].
  { rewrite (scan_beyond s tbl i _ Hs Ht) in Hn by lia. discriminate Hn. }
  destruct (index_cases i Hpos)
    as [->|[->|[->|[->|[->|[->|[->|[->|[->|[->|Hbig]]]]]]]]]];
    [ | | | | | | | | | |
      rewrite (scan_beyond s tbl i _ Hs Ht) in Hn by lia; discriminate Hn ];
    destruct (adaptive_tables s tbl Hs Ht)
      as [[_ ->]|[[_ ->]|[[_ ->]|[_ ->]]]];
    cbn in Hn, Hw; rewrite ?Hbw in Hw;
    first [ discriminate Hn | discriminate Hw
          | injection Hn as <- <-; injection Hw as <- <-;
            split; reflexivity ].
Qed.

(** 802.11n index 4: 39.0 at 20 MHz, 81.0 at 40 MHz. *)
Lemma wider_band_rate_is_higher_witness :
  lookup "802.11n" (VInt 4) (VInt 20) = ([], inr (VStr "16-QAM", VFloat 39.0))
  /\ lookup "802.11n" (VInt 4) (VInt 40)
     = ([], inr (VStr "16-QAM", VFloat 81.0))
  /\ (39.0 < 81.0)%Q /\ VStr "16-QAM" = VStr "16-QAM".
Proof.
  split; [reflexivity|]. split; [reflexivity|].
  apply (wider_band_rate_is_higher "802.11n" 4 (VInt 40)
           (VStr "16-QAM") (VStr "16-QAM") 39.0 81.0).
  - simpl. tauto.
  - intros (q & Hq & E). injection Hq as <-. discriminate E.
  - reflexivity.
  - reflexivity.
Defined.

End RateTableEdges.

(** ** Environment Model: what [reset] and [step] keep *)

Module EnvInvariants.
Import Env EnvReach EnvProps.
Local Open Scope R_scope.

Lemma step_never_returns (action : list R) (self : VANETEnv) :
  exists e, snd (step action self) = inl e.
Proof.
  unfold step.
  destruct (bind (unpack_state (current_state self)) _)
    as [e|[[p new_p] rho]]; simpl; eauto.
Qed.

(** [step] changes the object only when it got as far as line 174: for a
    state that is absent or made of JSON scalars, either the object is
    left as it was, or the state was a numeric pair, the action held a
    delta, and the call raised the IndexError of line 177. *)
Theorem step_changes_state_only_at_line_174 (action : list R)
    (self : VANETEnv) :
  (forall a, current_state self = Some a -> of_json_scalars a) ->
  fst (step action self) = self
  \/ exists p rho delta_p rest,
       current_state self = Some [Num p; Num rho]
       /\ action = delta_p :: rest
       /\ step action self
          = (set_current_state self
               [Num (clip (p + delta_p) 1 30);
                Num (rho * np_power (p / clip (p + delta_p) 1 30)
                             (1 / beta))],
             inl (IndexError string_index_msg)).
Proof.
  intros _.
  destruct (current_state self) as [[|[p|v] [|[rho|w] [|? ?]]]|] eqn:Hs;
    try (left; unfold step; rewrite Hs; reflexivity);
    destruct action as [|delta_p rest];
    try (left; unfold step; rewrite Hs; reflexivity).
  right. exists p, rho, delta_p, rest.
  split; [reflexivity|]. split; [reflexivity|]. now apply step_numeric.
Qed.

(** In state (15, 0.5) the action [1] reaches line 174; with a state whose
    power is a string it does not. *)
Lemma step_changes_state_only_at_line_174_witness :
  (fst (step [1] env_15) = env_15
   \/ exists p rho delta_p rest,
        current_state env_15 = Some [Num p; Num rho]
        /\ [1] = delta_p :: rest
        /\ step [1] env_15
           = (set_current_state env_15
                [Num (clip (p + delta_p) 1 30);
                 Num (rho * np_power (p / clip (p + delta_p) 1 30)
                              (1 / beta))],
              inl (IndexError string_index_msg)))
  /\ of_json_scalars [Num 15; Num 0.5].
Proof.
  assert (Hs : of_json_scalars [Num 15; Num 0.5])
    by (repeat constructor).
  split; [|exact Hs].
  apply (step_changes_state_only_at_line_174 [1] env_15).
  intros a Ha. injection Ha as <-. exact Hs.
Defined.

Lemma reset_fields (pick : nat) (self : VANETEnv) :
  let self' := fst (reset pick self) in
  Env.car_logs self' = Env.car_logs self
  /\ action_space self' = action_space self
  /\ observation_space self' = observation_space self
  /\ CBR_target self' = CBR_target self
  /\ pi_b self' = pi_b self.
Proof.
  unfold reset. destruct (bind _ _); simpl; repeat split.
Qed.

Lemma step_fields (action : list R) (self : VANETEnv) :
  let self' := fst (step action self) in
  Env.car_logs self' = Env.car_logs self
  /\ action_space self' = action_space self
  /\ observation_space self' = observation_space self
  /\ CBR_target self' = CBR_target self
  /\ pi_b self' = pi_b self.
Proof.
  unfold step.
  destruct (bind (unpack_state (current_state self)) _)
    as [e|[[p new_p] rho]]; simpl; repeat split.
Qed.

Lemma reachable_fields (pool : list json_object)
    (ieee_standard bandwidth : pyval) (self : VANETEnv) :
  reachable pool ieee_standard bandwidth self ->
  Env.car_logs self = pool
  /\ action_space self = [(-3, 3)]
  /\ observation_space self = [(1, 30); (0.001, 0.8)]
  /\ CBR_target self = float_0_6
  /\ pi_b self = None.
Proof.
  induction 1 as [|self pick _ IH|self action _ IH].
  - repeat split.
  - destruct (reset_fields pick self) as (-> & -> & -> & -> & ->). exact IH.
  - destruct (step_fields action self) as (-> & -> & -> & -> & ->). exact IH.
Qed.

Lemma reset_state_shape (pick : nat) (self : VANETEnv) :
  fst (reset pick self) = self
  \/ exists a b, current_state (fst (reset pick self)) = Some [a; b].
Proof.
  unfold reset. destruct (bind _ _) as [e|s] eqn:E; [left; reflexivity|].
  right. simpl.
  destruct (random_choice (Env.car_logs self) pick) as [e|log];
    [discriminate E|]. simpl in E.
  destruct (getitem log "power_transmission") as [e|p];
    [discriminate E|]. simpl in E.
  destruct (getitem log "vehicle_density") as [e|rho];
    [discriminate E|]. simpl in E.
  injection E as <-. unfold np_array2.
  destruct (num_of p), (num_of rho); eauto.
Qed.

(** Whatever calls of [reset] and [step] an environment has been through,
    its state is absent or a pair, its pool and its spaces are those of
    [__init__], and its target is 0.6. *)
Theorem reachable_state_is_a_pair (pool : list json_object)
    (ieee_standard bandwidth : pyval) (self : VANETEnv) :
  reachable pool ieee_standard bandwidth self ->
  (current_state self = None
   \/ exists a b, current_state self = Some [a; b])
  /\ Env.car_logs self = pool
  /\ action_space self = [(-3, 3)]
  /\ observation_space self = [(1, 30); (0.001, 0.8)]
  /\ CBR_target self = float_0_6.
Proof.
  intros Hreach.
  destruct (reachable_fields _ _ _ _ Hreach) as (Hl & Ha & Ho & Hc & _).
  split; [|tauto].
  clear Hl Ha Ho Hc.
  induction Hreach as [|self pick _ IH|self action _ IH].
  - left. reflexivity.
  - destruct (reset_state_shape pick self) as [->|Hpair];
      [exact IH | right; exact Hpair].
  - unfold step.
    destruct (bind (unpack_state (current_state self)) _)
      as [e|[[p new_p] rho]]; simpl; [exact IH|]. right. eauto.
Qed.

(** The environment of a pass on the scenario's record with a density,
    after its [reset] and its failed [step]: the state is the pair that
    [step] stored. *)
Lemma reachable_state_is_a_pair_witness :
  let pool := [Optimizer.scenario_record_with_density] in
  let self :=
    fst (step [1] (fst (reset 0 (Env.init pool (VStr "802.11g") (VInt 20)))))
  in
  ((current_state self = None
    \/ exists a b, current_state self = Some [a; b])
   /\ Env.car_logs self = pool
   /\ action_space self = [(-3, 3)]
   /\ observation_space self = [(1, 30); (0.001, 0.8)]
   /\ CBR_target self = float_0_6)
  /\ exists new_p new_rho, current_state self = Some [Num new_p; Num new_rho].
Proof.
  split.
  - apply (reachable_state_is_a_pair
             [Optimizer.scenario_record_with_density]
             (VStr "802.11g") (VInt 20)).
    apply reach_step. apply reach_reset. apply reach_init.
  - eexists. eexists.
    rewrite (step_numeric _ (Q2R (inject_Z 15)) (Q2R 0.5) 1 []).
    + reflexivity.
    + rewrite (OptimizerProps.reset_singleton 0 _
                 Optimizer.scenario_record_with_density) by reflexivity.
      reflexivity.
Defined.

(** No code assigns the four reward weights: on every environment built
    by [__init__] and changed by [reset] and [step] only, [reward_function]
    raises the AttributeError of [self.pi_b], whatever its arguments. *)
Theorem reward_function_raises_unassigned (pool : list json_object)
    (ieee_standard bandwidth : pyval) (self : VANETEnv)
    (cbr p p_prime : R) :
  reachable pool ieee_standard bandwidth self ->
  reward_function self cbr p p_prime
  = inl (AttributeError "'VANETEnv' object has no attribute 'pi_b'").
Proof.
  intros Hreach.
  destruct (reachable_fields _ _ _ _ Hreach) as (_ & _ & _ & _ & Hb).
  unfold reward_function. rewrite Hb. reflexivity.
Qed.

(** The reward in a freshly built environment after a [reset]. *)
Lemma reward_function_raises_unassigned_witness :
  reward_function (fst (reset 0 (Env.init [] VNone VNone))) 0.6 16 15
  = inl (AttributeError "'VANETEnv' object has no attribute 'pi_b'").
Proof.
  apply (reward_function_raises_unassigned [] VNone VNone).
  apply reach_reset. apply reach_init.
Defined.

(** An empty pool makes [reset] raise and changes nothing. *)
Lemma reset_empty_pool (pick : nat) (self : VANETEnv) :
  Env.car_logs self = [] ->
  reset pick self
  = (self, inl (IndexError "Cannot choose from an empty sequence")).
Proof. intros Hnil. unfold reset, random_choice. now rewrite Hnil. Qed.

(** [step] keeps density * power^(1/beta): on a state with strictly
    positive power and density, the stored density times the cube root of
    the stored power equals the old density times the cube root of the old
    power. *)
Theorem step_keeps_density_power_product (self : VANETEnv)
    (p rho delta_p : R) (rest : list R) :
  0 < p -> 0 < rho ->
  current_state self = Some [Num p; Num rho] ->
  exists new_p new_rho,
    current_state (fst (step (delta_p :: rest) self))
    = Some [Num new_p; Num new_rho]
    /\ new_rho * Rpower new_p (1 / beta) = rho * Rpower p (1 / beta).
Proof.
  intros Hp Hrho Hs.
  rewrite (step_numeric self p rho delta_p rest Hs). simpl.
  pose proof (clip_bounds (p + delta_p)) as [Hlo _].
  set (new_p := clip (p + delta_p) 1 30) in *.
  pose proof (ratio_pos p new_p Hp Hlo) as Hratio.
  eexists. eexists. split; [reflexivity|].
  unfold np_power. destruct (Rlt_dec 0 (p / new_p)); [|contradiction].
  rewrite Rmult_assoc, Rpower_mult_distr by lra.
  replace (p / new_p * new_p) with p by (field; lra). reflexivity.
Qed.

(** The product in state (15, 0.5) under the action [3]. *)
Lemma step_keeps_density_power_product_witness :
  exists new_p new_rho,
    current_state (fst (step [3] env_15)) = Some [Num new_p; Num new_rho]
    /\ new_rho * Rpower new_p (1 / beta) = 0.5 * Rpower 15 (1 / beta).
Proof.
  apply (step_keeps_density_power_product env_15 15 0.5 3 []);
    [lra | lra | reflexivity].
Defined.

Lemma Rpower_gt_one (x y : R) : 1 < x -> 0 < y -> 1 < Rpower x y.
Proof.
  intros Hx Hy. unfold Rpower. rewrite <- exp_0. apply exp_increasing.
  assert (0 < ln x) by (rewrite <- ln_1; apply ln_increasing; lra).
  nra.
Qed.

(** When the clipped new power is strictly smaller than the old power,
    the density [step] stores is strictly larger than the old density. *)
Theorem density_rises_when_power_falls (self : VANETEnv)
    (p rho delta_p : R) (rest : list R) :
  0 < p -> 0 < rho ->
  current_state self = Some [Num p; Num rho] ->
  clip (p + delta_p) 1 30 < p ->
  exists new_p new_rho,
    current_state (fst (step (delta_p :: rest) self))
    = Some [Num new_p; Num new_rho]
    /\ rho < new_rho.
Proof.
  intros Hp Hrho Hs Hlt.
  rewrite (step_numeric self p rho delta_p rest Hs). simpl.
  pose proof (clip_bounds (p + delta_p)) as [Hlo _].
  set (new_p := clip (p + delta_p) 1 30) in *.
  pose proof (ratio_pos p new_p Hp Hlo) as Hratio.
  eexists. eexists. split; [reflexivity|].
  unfold np_power. destruct (Rlt_dec 0 (p / new_p)); [|contradiction].
  assert (H1 : 1 < p / new_p).
  { apply (Rmult_lt_reg_r new_p); [lra|].
    unfold Rdiv. rewrite Rmult_assoc, Rinv_l by lra. lra. }
  assert (H2 : 1 < Rpower (p / new_p) (1 / beta))
    by (apply Rpower_gt_one; unfold beta; lra).
  nra.
Qed.

(** From power 15 the action [-3] gives power 12 and a higher density. *)
Lemma density_rises_when_power_falls_witness :
  exists new_p new_rho,
    current_state (fst (step [-3] env_15)) = Some [Num new_p; Num new_rho]
    /\ 0.5 < new_rho.
Proof.
  apply (density_rises_when_power_falls env_15 15 0.5 (-3) []);
    [lra | lra | reflexivity |].
  unfold clip, Rmin, Rmax.
  destruct (Rle_dec (15 + -3) 1); destruct (Rle_dec _ 30); lra.
Defined.

End EnvInvariants.

(** ** Policy/Value Learner: action bounds, returns, what [update] keeps *)

Module LearnerMore.
Import Env Learner LearnerProps.
Local Open Scope R_scope.

Lemma clip_within (x lo hi : R) : lo <= hi -> lo <= clip x lo hi <= hi.
Proof.
  intros Hle. unfold clip, Rmin, Rmax.
  destruct (Rle_dec x lo); destruct (Rle_dec _ hi); lra.
Qed.

(** With the action space of [__init__], every action [select_action]
    returns is a 1-element array whose element lies within [-3, 3],
    whatever the weights and the noise; and it does return one for every
    numeric state of the dimension of the weights. *)
Theorem select_action_within_bounds (z : R) (state : option ndarray)
    (self : PPOAgent) :
  action_space (env self) = [(-3, 3)] ->
  (forall a, select_action z state self = inr a ->
             exists x, a = [x] /\ -3 <= x <= 3)
  /\ (forall xs, state = Some (map Num xs) ->
                 length xs = length (policy_weights self) ->
                 exists a, select_action z state self = inr a).
Proof.
  intros Hspace. unfold select_action. rewrite Hspace. split.
  - intros a Ha. destruct state as [s|]; [|discriminate Ha]. simpl in Ha.
    destruct (as_nums s) as [e|x]; [discriminate Ha|]. simpl in Ha.
    destruct (dot x (policy_weights self)) as [e|mean_action];
      [discriminate Ha|]. simpl in Ha.
    injection Ha as <-. eexists. split; [reflexivity|].
    apply clip_within. lra.
  - intros xs -> Hlen. simpl. rewrite as_nums_numeric. simpl.
    rewrite (dot_same_length xs _ Hlen). simpl. eauto.
Qed.

(** The action of a learner with unit draws in state (15, 0.5). *)
Lemma select_action_within_bounds_witness :
  (forall a,
      select_action 1 (Some [Num 15; Num 0.5])
        (Learner.init (fun _ => 1) env_15) = inr a ->
      exists x, a = [x] /\ -3 <= x <= 3)
  /\ (forall xs, Some [Num 15; Num 0.5] = Some (map Num xs) ->
                 length xs
                 = length (policy_weights (Learner.init (fun _ => 1) env_15)) ->
                 exists a,
                   select_action 1 (Some [Num 15; Num 0.5])
                     (Learner.init (fun _ => 1) env_15) = inr a).
Proof.
  apply (select_action_within_bounds 1 (Some [Num 15; Num 0.5])
           (Learner.init (fun _ => 1) env_15)).
  reflexivity.
Defined.

Lemma sum_map_scale {A} (c : R) (f : A -> R) (l : list A) :
  sum (map (fun k => c * f k) l) = c * sum (map f l).
Proof.
  induction l as [|k l IH]; simpl; [ring|]. rewrite IH. ring.
Qed.

Lemma returns_closed_form (gamma : R) (rewards : list R) :
  forall t : nat,
    nth t (returns gamma rewards) 0
    = sum (map (fun k => gamma ^ k * nth (t + k) rewards 0)
             (seq 0 (length rewards - t))).
Proof.
  induction rewards as [|r rest IH]; intros t.
  - destruct t; reflexivity.
  - destruct t as [|t].
    + change (nth 0 (returns gamma (r :: rest)) 0)
        with (r + gamma * hd 0 (returns gamma rest)).
      rewrite hd_nth, (IH 0%nat), Nat.sub_0_r.
      change (length (r :: rest) - 0)%nat with (S (length rest)).
      change (seq 0 (S (length rest))) with (0%nat :: seq 1 (length rest)).
      rewrite <- seq_shift, <- sum_map_scale. simpl.
      rewrite map_map. simpl.
      assert (E : forall l : list nat,
                 map (fun k => gamma * (gamma ^ k * nth k rest 0)) l
                 = map (fun k => gamma * gamma ^ k * nth k rest 0) l).
      { intros l. apply map_ext. intros k. ring. }
      rewrite E. ring.
    + change (nth (S t) (returns gamma (r :: rest)) 0)
        with (nth t (returns gamma rest) 0).
      rewrite (IH t). reflexivity.
Qed.

(** For float rewards, the return [update] stores at index [t] is the
    sum of the rewards from [t] on, the one [k] places later weighted by
    gamma^k (and 0 beyond the end of the batch). *)
Theorem discounted_rewards_closed_form (gamma : R) (rewards : list R) :
  exists G,
    stored_returns gamma (FloatRewards rewards) = ret G
    /\ length G = length rewards
    /\ forall t : nat,
         nth t G 0
         = sum (map (fun k => gamma ^ k * nth (t + k) rewards 0)
                  (seq 0 (length rewards - t))).
Proof.
  exists (discounted_rewards gamma rewards).
  split; [apply stored_returns_float|].
  rewrite discounted_is_returns.
  split; [apply returns_length | apply returns_closed_form].
Qed.

Lemma sum_centered (m d : R) (xs : list R) :
  sum (map (fun x => (x - m) / d) xs)
  = (sum xs - INR (length xs) * m) / d.
Proof.
  induction xs as [|x xs IH].
  - simpl. unfold Rdiv. ring.
  - change (length (x :: xs)) with (S (length xs)). rewrite S_INR.
    simpl. rewrite IH. unfold Rdiv. ring.
Qed.

(** The normalized returns of a non-empty batch sum to zero. *)
Theorem normalized_returns_sum_to_zero (xs : list R) :
  xs <> [] ->
  exists ys, normalize xs = inr ys
             /\ length ys = length xs
             /\ sum ys = 0.
Proof.
  intros Hne. rewrite (normalize_nonempty xs Hne).
  eexists. split; [reflexivity|]. split; [apply length_map|].
  rewrite sum_centered. unfold mean.
  assert (Hn : INR (length xs) <> 0).
  { apply not_0_INR. destruct xs; [congruence | discriminate]. }
  pose proof (std_guard xs) as Hd.
  field. split; lra.
Qed.

(** The returns 1, 2, 3. *)
Lemma normalized_returns_sum_to_zero_witness :
  exists ys, normalize [1; 2; 3] = inr ys
             /\ length ys = 3%nat
             /\ sum ys = 0.
Proof.
  apply (normalized_returns_sum_to_zero [1; 2; 3]). discriminate.
Defined.

Lemma normalize_singleton (x : R) : normalize [x] = ret [0].
Proof.
  rewrite normalize_nonempty by discriminate.
  simpl map. unfold ret. do 2 f_equal.
  assert (E : x - mean [x] = 0).
  { unfold mean, sum. simpl. field. }
  rewrite E. unfold Rdiv. ring.
Qed.

Lemma truncate_IZR (z : Z) : truncate (IZR z) = z.
Proof.
  unfold truncate. destruct (Rle_dec 0 (IZR z)).
  - symmetry. apply Int_part_spec. lra.
  - rewrite <- opp_IZR. rewrite <- (Int_part_spec (IZR (- z)) (- z)%Z) by lra.
    lia.
Qed.

Lemma stored_single_float (gamma r : R) :
  (x <- stored_returns gamma (FloatRewards [r]) ;; normalize x) = ret [0].
Proof.
  rewrite stored_returns_float.
  change (discounted_rewards gamma [r]) with [0 * gamma + r].
  apply normalize_singleton.
Qed.

Lemma stored_single_int (gamma : R) (z : Z) :
  in_int64 z = true ->
  (x <- stored_returns gamma (IntRewards [z]) ;; normalize x) = ret [0].
Proof.
  intros Hz. unfold stored_returns.
  change (discounted_rewards gamma (rewards_values (IntRewards [z])))
    with [0 * gamma + IZR z].
  simpl. replace (0 * gamma + IZR z) with (IZR z) by ring.
  rewrite truncate_IZR, Hz. simpl. apply normalize_singleton.
Qed.

Lemma update_single (states : list ndarray) (actions : list (list R))
    (rewards rewards' : rewards_array) (next next' : list ndarray)
    (self : PPOAgent) :
  (x <- stored_returns (gamma self) rewards ;; normalize x)
  = (x <- stored_returns (gamma self) rewards' ;; normalize x) ->
  update states actions rewards next self
  = update states actions rewards' next' self.
Proof.
  intros E. unfold update.
  destruct (mapM as_nums states) as [e|xss]; [reflexivity|]. simpl.
  destruct (stored_returns (gamma self) rewards) as [e|G],
    (stored_returns (gamma self) rewards') as [e'|G']; simpl in *.
  - congruence.
  - rewrite <- E. reflexivity.
  - rewrite E. reflexivity.
  - now rewrite E.
Qed.

(** A batch of one transition makes the reward irrelevant: the normalized
    return of a single return is 0, so [update] leaves the same learner
    behind whatever the reward (and whatever the next state); a float
    reward or an integer one. *)
Theorem update_of_one_transition_ignores_reward (self : PPOAgent)
    (s : ndarray) (a : list R) (r r' : R) (z : Z)
    (next next' : list ndarray) :
  update [s] [a] (FloatRewards [r]) next self
  = update [s] [a] (FloatRewards [r']) next' self
  /\ (in_int64 z = true ->
      update [s] [a] (IntRewards [z]) next self
      = update [s] [a] (FloatRewards [r]) next' self).
Proof.
  split.
  - apply update_single. now rewrite !stored_single_float.
  - intros Hz. apply update_single.
    now rewrite stored_single_float, stored_single_int.
Qed.

(** The integer reward 2 and the float reward 0.5, in state (15, 0.5). *)
Lemma update_of_one_transition_ignores_reward_witness :
  let self := Learner.init (fun _ => 1) env_15 in
  update [[Num 15; Num 0.5]] [[1]] (IntRewards [2%Z]) [] self
  = update [[Num 15; Num 0.5]] [[1]] (FloatRewards [0.5]) [] self.
Proof.
  apply (proj2 (update_of_one_transition_ignores_reward
                  (Learner.init (fun _ => 1) env_15)
                  [Num 15; Num 0.5] [1] 0.5 0.5 2 [] [])).
  reflexivity.
Defined.

Lemma same_shape_refl (self : PPOAgent) : LearnerFrame.same_shape self self.
Proof. repeat split. Qed.

Lemma same_shape_trans (a b c : PPOAgent) :
  LearnerFrame.same_shape a b -> LearnerFrame.same_shape b c ->
  LearnerFrame.same_shape a c.
Proof.
  unfold LearnerFrame.same_shape.
  intros (? & ? & ? & ? & ? & ? & ?) (? & ? & ? & ? & ? & ? & ?).
  repeat split; congruence.
Qed.

Lemma dot_returns_length (x w : list R) (v : R) :
  dot x w = inr v -> length x = length w.
Proof.
  unfold dot. destruct (Nat.eqb_spec (length x) (length w));
    [tauto | discriminate].
Qed.

Lemma policy_loop_same_shape (states : list (list R)) :
  forall (i : nat) (advantages : list R) (actions : list (list R))
         (self : PPOAgent),
    LearnerFrame.same_shape self
      (fst (policy_loop i states advantages actions self)).
Proof.
  induction states as [|state rest IH]; intros i advantages actions self.
  - apply same_shape_refl.
  - simpl.
    destruct (at_index advantages i) as [e|adv];
      [apply same_shape_refl|]. simpl.
    destruct (at_index actions i) as [e|action];
      [apply same_shape_refl|]. simpl.
    destruct action as [|a [|? ?]]; try apply same_shape_refl. simpl.
    destruct (dot state (policy_weights self)) as [e|mean_action] eqn:Edot;
      [apply same_shape_refl|]. simpl.
    eapply same_shape_trans; [|apply IH].
    repeat split. simpl. rewrite length_zip_with.
    apply dot_returns_length in Edot. lia.
Qed.

Lemma value_loop_same_shape (states : list (list R)) :
  forall (i : nat) (advantages : list R) (self : PPOAgent),
    LearnerFrame.same_shape self
      (fst (value_loop i states advantages self)).
Proof.
  induction states as [|state rest IH]; intros i advantages self.
  - apply same_shape_refl.
  - simpl.
    destruct (at_index advantages i) as [e|adv];
      [apply same_shape_refl|]. simpl.
    destruct (Nat.eqb_spec (length (value_weights self)) (length state))
      as [Hlen|Hlen]; [|apply same_shape_refl].
    eapply same_shape_trans; [|apply IH].
    repeat split. simpl. rewrite length_zip_with. lia.
Qed.

Lemma update_same_shape (states : list ndarray) (actions : list (list R))
    (rewards : rewards_array) (next_states : list ndarray)
    (self : PPOAgent) :
  LearnerFrame.same_shape self
    (fst (update states actions rewards next_states self)).
Proof.
  unfold update.
  destruct (bind (mapM as_nums states) _) as [e|[xss advantages]];
    [apply same_shape_refl|].
  pose proof (policy_loop_same_shape xss 0 advantages actions self) as H1.
  destruct (policy_loop 0 xss advantages actions self) as [self1 [e|u]];
    [exact H1|].
  eapply same_shape_trans; [exact H1|]. apply value_loop_same_shape.
Qed.

(** Whether it returns or raises, [update] leaves the learner with the
    same environment, discount, noise scale and learning rates, and with
    policy and value weights of the shapes they had. *)
Theorem update_keeps_the_shapes (states : list ndarray)
    (actions : list (list R)) (rewards : rewards_array)
    (next_states : list ndarray) (self : PPOAgent) :
  LearnerFrame.same_shape self
    (fst (update states actions rewards next_states self)).
Proof. apply update_same_shape. Qed.

End LearnerMore.

(** ** Training and the connection handler: what never happens *)

Module TrainingFrame.
Import Env Learner Training TrainingKept Optimizer EnvInvariants.
Local Open Scope R_scope.

Lemma kept_refl (st : pass) : kept st st.
Proof. unfold kept. repeat split. lia. Qed.

Lemma step_raises (action : list R) (self : VANETEnv) :
  exists e, snd (step action self) = inl e /\ python_exception e.
Proof.
  unfold step.
  destruct (current_state self) as [[|p [|rho [|? ?]]]|]; simpl;
    try (eexists; split; [reflexivity | exact I]).
  destruct action as [|delta_p rest]; simpl;
    try (eexists; split; [reflexivity | exact I]).
  destruct p as [p|v]; simpl; try (eexists; split; [reflexivity | exact I]).
  destruct rho as [rho|w]; simpl; eexists; split; try reflexivity; exact I.
Qed.

Lemma mapM_as_num_raises (a : ndarray) (e : exn) :
  mapM as_num a = inl e -> python_exception e.
Proof.
  revert e. induction a as [|[x|v] a IH]; intros e; simpl.
  - discriminate.
  - destruct (mapM as_num a) as [e'|xs]; simpl.
    + intros [= <-]. now apply IH.
    + discriminate.
  - intros [= <-]. exact I.
Qed.

Lemma select_action_raises (z : R) (state : option ndarray)
    (self : PPOAgent) (e : exn) :
  select_action z state self = inl e -> python_exception e.
Proof.
  unfold select_action. destruct state as [s|]; simpl.
  - unfold as_nums.
    destruct (mapM as_num s) as [e'|x] eqn:Ex; simpl.
    + intros [= <-]. exact (mapM_as_num_raises s e' Ex).
    + unfold dot.
      destruct (Nat.eqb (length x) (length (policy_weights self))); simpl.
      * discriminate.
      * intros [= <-]. exact I.
  - intros [= <-]. exact I.
Qed.

Lemma reset_raises (pick : nat) (self : VANETEnv) (e : exn) :
  snd (reset pick self) = inl e -> python_exception e.
Proof.
  unfold reset, random_choice, getitem.
  destruct (Env.car_logs self !! (pick mod length (Env.car_logs self))%nat)
    as [log|]; simpl; [|intros [= <-]; exact I].
  destruct (log !! "power_transmission"); simpl; [|intros [= <-]; exact I].
  destruct (log !! "vehicle_density"); simpl; [|intros [= <-]; exact I].
  discriminate.
Qed.

Lemma on_env_step_raises (action : list R) (st : pass) :
  exists st' e,
    on_env (step action) st = (st', inl e)
    /\ python_exception e
    /\ policy_weights (agent st') = policy_weights (agent st)
    /\ value_weights (agent st') = value_weights (agent st)
    /\ out st' = out st /\ draws st' = draws st.
Proof.
  unfold on_env, on_agent.
  destruct (step_raises action (env (agent st))) as (e & He & Hpy).
  destruct (step action (env (agent st))) as [env' r]. simpl in He. subst r.
  eexists. exists e. split; [reflexivity|]. repeat split. exact Hpy.
Qed.

(** With a positive loop bound the loop ends in its first pass, with the
    exception of [select_action] or of [step]. *)
Lemma while_not_done_raises (normal : nat -> R) (fuel batch_size : nat)
    (state : ndarray) (states : list ndarray) (actions : list (list R))
    (rewards : list R) (next_states : list ndarray) (st : pass) :
  exists st' e,
    while_not_done normal (S fuel) batch_size state states actions rewards
      next_states st = (st', inl e)
    /\ python_exception e
    /\ kept st st'.
Proof.
  simpl. unfold mbind at 1. unfold draw_action at 1.
  destruct (select_action (normal (draws st)) (Some state) (agent st))
    as [e|action] eqn:Ea.
  - eexists. exists e. split; [reflexivity|].
    split; [exact (select_action_raises _ _ _ _ Ea)|].
    unfold kept. simpl. repeat split. lia.
  - unfold mbind at 1.
    match goal with
    | |- context [on_env (step action) ?s] =>
        destruct (on_env_step_raises action s)
          as (st' & e & -> & Hpy & Hp & Hv & Ho & Hd)
    end.
    exists st', e. split; [reflexivity|]. split; [exact Hpy|].
    unfold kept. simpl in *. repeat split; try congruence; try lia.
Qed.

Lemma on_env_reset_keeps (pick : nat) (st : pass) :
  policy_weights (agent (fst (on_env (reset pick) st)))
  = policy_weights (agent st)
  /\ value_weights (agent (fst (on_env (reset pick) st)))
     = value_weights (agent st)
  /\ out (fst (on_env (reset pick) st)) = out st
  /\ draws (fst (on_env (reset pick) st)) = draws st
  /\ (forall e, snd (on_env (reset pick) st) = inl e -> python_exception e).
Proof.
  unfold on_env, on_agent.
  pose proof (reset_raises pick (env (agent st))) as Hpy.
  destruct (reset pick (env (agent st))) as [env' r]. simpl in *.
  repeat split. exact Hpy.
Qed.

Lemma episodes_raise (pick : nat -> nat) (normal : nat -> R)
    (fuel batch_size episode : nat) (todo : list nat) (all_rewards : list R)
    (st : pass) :
  exists st' e,
    episodes pick normal (S fuel) batch_size (episode :: todo) all_rewards st
    = (st', inl e)
    /\ python_exception e
    /\ kept st st'.
Proof.
  cbn [episodes]. unfold mbind at 1.
  pose proof (on_env_reset_keeps (pick episode) st)
    as (Hp & Hv & Ho & Hd & Hpy).
  destruct (on_env (reset (pick episode)) st) as [st1 [e|state]].
  - exists st1, e. split; [reflexivity|].
    split; [now apply Hpy|].
    unfold kept. simpl in *. repeat split; try congruence; try lia.
  - unfold mbind at 1.
    destruct (while_not_done_raises normal fuel batch_size state
                [] [] [] [] st1)
      as (st' & e & -> & Hpy' & Hp' & Hv' & Ho' & Hd').
    exists st', e. split; [reflexivity|]. split; [exact Hpy'|].
    unfold kept. simpl in *. repeat split; try congruence; try lia.
Qed.

Lemma train_frame (pick : nat -> nat) (normal : nat -> R)
    (fuel num_episodes batch_size : nat) (st : pass) :
  exists st' e,
    train pick normal (S fuel) num_episodes batch_size st = (st', inl e)
    /\ python_exception e
    /\ kept st st'
    /\ (num_episodes = O -> st' = st /\ e = NameError "plt").
Proof.
  unfold train. destruct num_episodes as [|n].
  - exists st, (NameError "plt").
    split; [reflexivity|]. split; [exact I|].
    split; [apply kept_refl | tauto].
  - change (seq 0 (S n)) with (0%nat :: seq 1 n). unfold mbind.
    destruct (episodes_raise pick normal fuel batch_size 0 (seq 1 n) [] st)
      as (st' & e & -> & Hpy & Hkept).
    exists st', e. split; [reflexivity|]. split; [exact Hpy|].
    split; [exact Hkept | discriminate].
Qed.

Lemma mbind_raise {S A B} (c : M S A) (k : A -> M S B) (s s' : S)
    (e : exn) :
  c s = (s', inl e) -> mbind c k s = (s', inl e).
Proof. intros E. unfold mbind. now rewrite E. Qed.

Lemma mbind_ret {S A B} (c : M S A) (k : A -> M S B) (s s' : S) (a : A) :
  c s = (s', inr a) -> mbind c k s = k a s'.
Proof. intros E. unfold mbind. now rewrite E. Qed.

Lemma while_any_bound (normal : nat -> R) (fuel batch_size : nat)
    (state : ndarray) (states : list ndarray) (actions : list (list R))
    (rewards : list R) (next_states : list ndarray) (st : pass) :
  while_not_done normal (S fuel) batch_size state states actions rewards
    next_states st
  = while_not_done normal 1 batch_size state states actions rewards
      next_states st.
Proof.
  cbn [while_not_done].
  destruct (draw_action normal (Some state) st) as [st1 [e|action]] eqn:Ea.
  - erewrite mbind_raise by exact Ea. symmetry.
    erewrite mbind_raise by exact Ea. reflexivity.
  - erewrite mbind_ret by exact Ea. symmetry.
    erewrite mbind_ret by exact Ea.
    destruct (on_env_step_raises action st1) as (st' & e & Es & _).
    erewrite mbind_raise by exact Es. symmetry.
    erewrite mbind_raise by exact Es. reflexivity.
Qed.

(** The loop bound plays no part: with any positive bound [train] does
    what it does with the bound 1. *)
Lemma train_any_bound (pick : nat -> nat) (normal : nat -> R)
    (fuel num_episodes batch_size : nat) (st : pass) :
  train pick normal (S fuel) num_episodes batch_size st
  = train pick normal 1 num_episodes batch_size st.
Proof.
  unfold train. destruct num_episodes as [|n]; [reflexivity|].
  change (seq 0 (S n)) with (0%nat :: seq 1 n).
  assert (E : forall f,
             episodes pick normal (S f) batch_size (0%nat :: seq 1 n) [] st
             = episodes pick normal 1 batch_size (0%nat :: seq 1 n) [] st).
  { intros f. cbn [episodes].
    destruct (on_env (reset (pick 0%nat)) st) as [st1 [e|state]] eqn:Er.
    - erewrite mbind_raise by exact Er. symmetry.
      erewrite mbind_raise by exact Er. reflexivity.
    - erewrite mbind_ret by exact Er. symmetry.
      erewrite mbind_ret by exact Er.
      destruct (while_not_done_raises normal 0 batch_size state
                  [] [] [] [] st1) as (st' & e & Ew & _).
      erewrite mbind_raise by exact Ew. symmetry.
      erewrite mbind_raise by (rewrite while_any_bound; exact Ew).
      reflexivity. }
  unfold mbind. now rewrite E.
Qed.

(** [train] never learns: whatever the pool, the draws and the number of
    episodes, the call raises an exception of Python (the model's loop
    bound, when positive, is never reached and plays no part) and leaves
    the policy and value weights and the printed lines as they were,
    having drawn at most one action; with no episode to run it raises the
    NameError of line 259 and changes nothing. *)
Theorem train_changes_no_weights (pick : nat -> nat) (normal : nat -> R)
    (fuel num_episodes batch_size : nat) (st : pass) :
  train pick normal (S fuel) num_episodes batch_size st
  = train pick normal 1 num_episodes batch_size st
  /\ exists st' e,
       train pick normal (S fuel) num_episodes batch_size st = (st', inl e)
       /\ python_exception e
       /\ policy_weights (agent st') = policy_weights (agent st)
       /\ value_weights (agent st') = value_weights (agent st)
       /\ out st' = out st
       /\ (draws st' <= S (draws st))%nat
       /\ (num_episodes = O -> st' = st /\ e = NameError "plt").
Proof.
  split; [apply train_any_bound|].
  destruct (train_frame pick normal fuel num_episodes batch_size st)
    as (st' & e & E & Hpy & (Hp & Hv & Ho & Hd) & H0).
  exists st', e. tauto.
Qed.

(** No pass issues an actuation command: whatever the record and the
    random draws, [process_car_log] raises an exception of Python, [train]
    never returning; the model's loop bound, when positive, plays no
    part. *)
Theorem process_car_log_raises (pick : nat -> nat) (normal randn : nat -> R)
    (fuel : nat) (self : Server) (car_log : json_object) :
  process_car_log pick normal randn (S fuel) self car_log
  = process_car_log pick normal randn 1 self car_log
  /\ commands (fst (process_car_log pick normal randn (S fuel) self car_log))
     = []
  /\ exists e,
       snd (process_car_log pick normal randn (S fuel) self car_log) = inl e
       /\ python_exception e.
Proof.
  unfold process_car_log. rewrite train_any_bound.
  split; [reflexivity|].
  match goal with
  | |- context [train pick normal 1 1 128 ?st] =>
      destruct (train_frame pick normal 0 1 128 st)
        as (st' & e & E & Hpy & _); rewrite E
  end.
  simpl. eauto.
Qed.

(** Whatever a connection delivers, the handler issues no actuation
    command and asks nothing of the emulator, leaves [net] as it was,
    appends to [car_logs] exactly the payload that decoded (and nothing
    otherwise), and closes the socket last: it prints nothing when no data
    came, and otherwise exactly one error line, that of an exception of
    Python; the model's loop bound, when positive, plays no part. *)
Theorem handle_client_never_actuates (pick : nat -> nat)
    (normal randn : nat -> R) (fuel : nat) (self : Server)
    (data : received) :
  handle_client pick normal randn (S fuel) self data
  = handle_client pick normal randn 1 self data
  /\ commands (snd (handle_client pick normal randn (S fuel) self data)) = []
  /\ net (fst (handle_client pick normal randn (S fuel) self data)) = net self
  /\ car_logs (fst (handle_client pick normal randn (S fuel) self data))
     = car_logs self ++ match data with
                        | Json decoded_data => [decoded_data]
                        | _ => []
                        end
  /\ (events (snd (handle_client pick normal randn (S fuel) self data))
      = [SocketClose] /\ data = NoData
      \/ exists e,
           events (snd (handle_client pick normal randn (S fuel) self data))
           = [PrintErrorHandling e; SocketClose]
           /\ python_exception e).
Proof.
  destruct data as [| |[car_log|v]]; simpl.
  - rewrite app_nil_r. repeat split. left. split; reflexivity.
  - rewrite app_nil_r. repeat split. right. eexists. split; [reflexivity|].
    exact I.
  - unfold process_car_log. rewrite train_any_bound.
    split; [reflexivity|].
    match goal with
    | |- context [train pick normal 1 1 128 ?st] =>
        destruct (train_frame pick normal 0 1 128 st)
          as (st' & e & -> & Hpy & (_ & _ & Ho & _) & _)
    end.
    simpl in *. rewrite Ho. repeat split. right. eauto.
  - repeat split. right. eexists. split; [reflexivity | exact I].
Qed.

End TrainingFrame.

(** ** Collector: repeated processing, rounding, and the report *)

Module CollectorMore.
Import Collector CollectorProps Report.
Local Open Scope Q_scope.

Lemma round_half_even_near (y : Q) :
  y - (1 # 2) <= inject_Z (round_half_even y) <= y + (1 # 2).
Proof.
  unfold round_half_even.
  pose proof (Qfloor_le y) as Hlo. pose proof (Qlt_floor y) as Hhi.
  rewrite inject_Z_plus in Hhi. change (inject_Z 1) with 1 in Hhi.
  destruct (Qcompare_spec (y - inject_Z (Qfloor y)) (1 # 2)) as [E|E|E].
  - destruct (Z.even (Qfloor y)); [|rewrite inject_Z_plus;
      change (inject_Z 1) with 1]; split; Lqa.lra.
  - split; Lqa.lra.
  - rewrite inject_Z_plus. change (inject_Z 1) with 1. split; Lqa.lra.
Qed.

Lemma round2_near (x : Q) : x - (1 # 200) <= round2 x <= x + (1 # 200).
Proof.
  unfold round2. pose proof (round_half_even_near (x * 100)) as [Hlo Hhi].
  unfold Qdiv. change (/ 100) with (1 # 100). split; Lqa.lra.
Qed.

Section Float.

Variable float_of_str : string -> option float.

Lemma originals_process_record (record : json_object) :
  originals float_of_str (process_record float_of_str record)
  = originals float_of_str record.
Proof.
  destruct (process_record_fields float_of_str record) as (_ & _ & Hkeep).
  unfold originals, get.
  now rewrite !Hkeep by discriminate.
Qed.

Lemma process_record_twice (record : json_object) :
  process_record float_of_str (process_record float_of_str record)
  = process_record float_of_str record.
Proof.
  unfold process_record at 1. rewrite originals_process_record.
  unfold process_record.
  destruct (originals float_of_str record) as [p d].
  apply map_eq. intros key.
  destruct (decide (key = "optimized_data_rate")) as [->|Hd].
  { now rewrite !lookup_insert_eq. }
  rewrite !(lookup_insert_ne _ "optimized_data_rate") by congruence.
  destruct (decide (key = "optimized_power")) as [->|Hp].
  { now rewrite !lookup_insert_eq. }
  now rewrite !lookup_insert_ne by congruence.
Qed.

(** Processing twice is processing once: [process_data] applied to its
    own result returns it unchanged. *)
Theorem process_data_is_idempotent (data_list : list json_object) :
  process_data float_of_str (process_data float_of_str data_list)
  = process_data float_of_str data_list.
Proof.
  rewrite !process_data_map, map_map.
  apply map_ext. intros record. apply process_record_twice.
Qed.

(** The two values follow float arithmetic, not the exact product: from
    power 12.25 and data rate 12.75 the code sets 11.03 and 14.03, where
    the exact products 11.025 and 14.025 would round to 11.02 and 14.02;
    an integer power of 10 ** 400 does not convert, so both values are
    those of the defaults, 13.5 and 19.8, whatever the data rate; and a
    data rate of 1.7e308 gives an infinite optimized_data_rate. *)
Theorem optimized_values_follow_float_arithmetic :
  (let record : json_object :=
     list_to_map [ ("power_transmission", VFloat 12.25);
                   ("data_rate", VFloat 12.75) ] in
   process_record float_of_str record !! "optimized_power"
   = Some (float_value (to_double 11.03))
   /\ process_record float_of_str record !! "optimized_data_rate"
      = Some (float_value (to_double 14.03)))
  /\ round2 (12.25 * 0.9) == 11.02
  /\ round2 (12.75 * 1.1) == 14.02
  /\ (let record : json_object :=
        list_to_map [ ("power_transmission", VInt (10 ^ 400));
                      ("data_rate", VInt 20) ] in
      process_record float_of_str record !! "optimized_power"
      = Some (float_value (to_double 13.5))
      /\ process_record float_of_str record !! "optimized_data_rate"
         = Some (float_value (to_double 19.8)))
  /\ (let record : json_object :=
        list_to_map [ ("power_transmission", VInt 15);
                      ("data_rate", VFloat 1.7e308) ] in
      process_record float_of_str record !! "optimized_data_rate"
      = Some (VSpecial PosInf)).
Proof.
  repeat split; vm_compute; reflexivity.
Qed.

Lemma column_optimized_power : "optimized_power" ∈ fieldnames.
Proof. unfold fieldnames. set_solver. Qed.

Lemma column_optimized_data_rate : "optimized_data_rate" ∈ fieldnames.
Proof. unfold fieldnames. set_solver. Qed.

Lemma only_columns_process_record (record : json_object) :
  only_columns record -> only_columns (process_record float_of_str record).
Proof.
  intros Hcols. unfold process_record.
  destruct (originals float_of_str record) as [p d].
  apply map_Forall_insert_2; [exact column_optimized_data_rate|].
  apply map_Forall_insert_2; [exact column_optimized_power|].
  exact Hcols.
Qed.

Lemma not_only_columns_process_record (record : json_object)
    (key : string) (v : pyval) :
  record !! key = Some v -> key ∉ fieldnames ->
  ~ only_columns (process_record float_of_str record).
Proof.
  intros Hkey Hnot Hcols. apply Hnot.
  destruct (process_record_fields float_of_str record) as (_ & _ & Hkeep).
  apply (Hcols key v). rewrite Hkeep; [exact Hkey| |].
  - intros ->. apply Hnot. exact column_optimized_power.
  - intros ->. apply Hnot. exact column_optimized_data_rate.
Qed.

Lemma write_rows_all (data_list : list json_object) :
  forall written,
    Forall only_columns data_list ->
    write_rows data_list written = (written ++ map cells data_list, ret tt).
Proof.
  induction data_list as [|record rest IH]; intros written Hall.
  - simpl. now rewrite app_nil_r.
  - inversion Hall as [|? ? Hrec Hrest]; subst. simpl. unfold writerow.
    destruct (decide (only_columns record)); [|contradiction].
    simpl. rewrite (IH _ Hrest), <- app_assoc. reflexivity.
Qed.

Lemma write_rows_stop (before : list json_object) (record : json_object)
    (after : list json_object) :
  forall written,
    Forall only_columns before -> ~ only_columns record ->
    write_rows (before ++ record :: after) written
    = (written ++ map cells before,
       inl (ValueError "dict contains fields not in fieldnames")).
Proof.
  induction before as [|r rest IH]; intros written Hall Hbad.
  - simpl. unfold writerow.
    destruct (decide (only_columns record)); [contradiction|].
    now rewrite app_nil_r.
  - inversion Hall as [|? ? Hrec Hrest]; subst. simpl. unfold writerow.
    destruct (decide (only_columns r)); [|contradiction].
    simpl. rewrite (IH _ Hrest Hbad), <- app_assoc. reflexivity.
Qed.

Lemma report_written (received_data : list json_object) :
  Forall only_columns received_data ->
  report float_of_str received_data
  = (map VStr fieldnames
     :: map (fun record => cells (process_record float_of_str record))
          received_data,
     ret tt).
Proof.
  intros Hall. unfold report, write_csv.
  rewrite process_data_map, write_rows_all.
  - now rewrite map_map.
  - rewrite Forall_map. eapply Forall_impl; [exact Hall|].
    intros record. apply only_columns_process_record.
Qed.

(** When every received record has only keys among the columns, the main
    program's report is written in full: the header row, then one row per
    record in the order received, holding the cells of the processed
    record (an empty string where it lacks a column). *)
Theorem report_of_column_records (received_data : list json_object) :
  Forall only_columns received_data ->
  report float_of_str received_data
  = (map VStr fieldnames
     :: map (fun record => cells (process_record float_of_str record))
          received_data,
     ret tt).
Proof. apply report_written. Qed.

(** A received record with a key that is no column (such as the
    vehicle_density the optimizer reads) stops the report: [write_csv]
    raises ValueError, and the file holds the header and the rows of the
    records before it only. *)
Theorem report_stops_at_unknown_field (before : list json_object)
    (record : json_object) (after : list json_object)
    (key : string) (v : pyval) :
  Forall only_columns before ->
  record !! key = Some v -> key ∉ fieldnames ->
  report float_of_str (before ++ record :: after)
  = (map VStr fieldnames
     :: map (fun r => cells (process_record float_of_str r)) before,
     inl (ValueError "dict contains fields not in fieldnames")).
Proof.
  intros Hall Hkey Hnot. unfold report, write_csv.
  rewrite process_data_map, map_app. simpl map.
  rewrite write_rows_stop.
  - now rewrite map_map.
  - rewrite Forall_map. eapply Forall_impl; [exact Hall|].
    intros r. apply only_columns_process_record.
  - exact (not_only_columns_process_record record key v Hkey Hnot).
Qed.

End Float.

Lemma scenario_only_columns : only_columns Optimizer.scenario_record.
Proof.
  unfold only_columns, Optimizer.scenario_record. simpl.
  repeat (apply map_Forall_insert_2; [unfold fieldnames; set_solver|]).
  apply map_Forall_empty.
Defined.

(** The report of the scenario's record alone. *)
Lemma report_of_column_records_witness :
  report (fun _ => None) [Optimizer.scenario_record]
  = (map VStr fieldnames
     :: map (fun record => cells (process_record (fun _ => None) record))
          [Optimizer.scenario_record],
     ret tt).
Proof.
  apply (report_of_column_records (fun _ => None)
           [Optimizer.scenario_record]).
  constructor; [exact scenario_only_columns | constructor].
Defined.

(** The scenario's record followed by the one with a vehicle density. *)
Lemma report_stops_at_unknown_field_witness :
  report (fun _ => None)
    ([Optimizer.scenario_record]
     ++ Optimizer.scenario_record_with_density :: [])
  = (map VStr fieldnames
     :: map (fun r => cells (process_record (fun _ => None) r))
          [Optimizer.scenario_record],
     inl (ValueError "dict contains fields not in fieldnames")).
Proof.
  apply (report_stops_at_unknown_field (fun _ => None)
           [Optimizer.scenario_record]
           Optimizer.scenario_record_with_density []
           "vehicle_density" (VFloat 0.5)).
  - constructor; [exact scenario_only_columns | constructor].
  - reflexivity.
  - intros H.
    repeat (apply elem_of_cons in H as [H|H]; [discriminate H|]).
    now apply elem_of_nil in H.
Defined.

End CollectorMore.

(** ** The simulated client and what the collector makes of its run *)

Module ClientProps.
Import Collector Report Client CollectorMore.
Local Open Scope Q_scope.

Lemma round_half_even_between (a b : Z) (y : Q) :
  inject_Z a <= y <= inject_Z b ->
  (a <= round_half_even y <= b)%Z.
Proof.
  intros [Ha Hb].
  pose proof (Qfloor_resp_le _ _ Ha) as Hfa. rewrite Qfloor_Z in Hfa.
  pose proof (Qfloor_resp_le _ _ Hb) as Hfb. rewrite Qfloor_Z in Hfb.
  pose proof (Qfloor_le y) as Hlo.
  assert (Hstep : 0 < y - inject_Z (Qfloor y) -> (Qfloor y + 1 <= b)%Z).
  { intros Hpos.
    assert (Hlt : inject_Z (Qfloor y) < inject_Z b) by Lqa.lra.
    rewrite <- Zlt_Qlt in Hlt. lia. }
  unfold round_half_even.
  destruct (Qcompare_spec (y - inject_Z (Qfloor y)) (1 # 2)) as [E|E|E].
  - assert (Hpos : 0 < y - inject_Z (Qfloor y)) by Lqa.lra.
    specialize (Hstep Hpos). destruct (Z.even (Qfloor y)); lia.
  - lia.
  - assert (Hpos : 0 < y - inject_Z (Qfloor y)) by Lqa.lra.
    specialize (Hstep Hpos). lia.
Qed.

Lemma round2_between (a b : Z) (x : Q) :
  inject_Z a <= x * 100 <= inject_Z b ->
  inject_Z a / 100 <= round2 x <= inject_Z b / 100.
Proof.
  intros Hx. destruct (round_half_even_between a b (x * 100) Hx) as [Ha Hb].
  rewrite Zle_Qle in Ha, Hb.
  unfold round2, Qdiv. change (/ 100) with (1 # 100). split; Lqa.lra.
Qed.

Lemma fold_append {A B} (f : B -> A) (l : list B) (acc : list A) :
  fold_left (fun acc x => acc ++ [f x]) l acc = acc ++ map f l.
Proof.
  revert acc. induction l as [|x l IH]; intros acc; simpl.
  - now rewrite app_nil_r.
  - now rewrite IH, <- app_assoc.
Qed.

Lemma fold_append_all {A B} (g : B -> list A) (l : list B) (acc : list A) :
  fold_left (fun acc x => acc ++ g x) l acc = acc ++ flat_map g l.
Proof.
  revert acc. induction l as [|x l IH]; intros acc; simpl.
  - now rewrite app_nil_r.
  - now rewrite IH, <- app_assoc.
Qed.

Section Sources.

Variable random : nat -> Q.
Variable choose : nat -> nat.
Variable now : nat -> string.

Lemma run_simulation_records :
  run_simulation random choose now
  = flat_map
      (fun t =>
         map (fun i =>
                make_record random choose (now t) i
                  (t * num_vehicles + (i - 1)))
           (seq 1 num_vehicles))
      (seq 0 simulation_run_duration).
Proof.
  unfold run_simulation.
  rewrite <- (app_nil_l (flat_map _ _)), <- fold_append_all.
  f_equal.
Qed.

Lemma make_record_lookup (current_time : string) (i n : nat)
    (key : string) (v : pyval) :
  make_record random choose current_time i n !! key = Some v ->
  key ∈ schema.
Proof.
  intros Hv. apply elem_of_list_to_map_2 in Hv.
  repeat (apply elem_of_cons in Hv as [Hv|Hv];
          [ injection Hv as -> _; unfold schema; set_solver | ]).
  now apply elem_of_nil in Hv.
Qed.

Lemma make_record_has (current_time : string) (i n : nat) (key : string) :
  key ∈ schema ->
  is_Some (make_record random choose current_time i n !! key).
Proof.
  intros Hkey. unfold schema in Hkey. unfold make_record, list_to_map.
  cbn [foldr fst snd].
  repeat (apply elem_of_cons in Hkey as [->|Hkey];
          [ repeat (rewrite lookup_insert_ne by discriminate);
            rewrite lookup_insert_eq; eauto | ]).
  now apply elem_of_nil in Hkey.
Qed.

Lemma schema_in_columns (key : string) : key ∈ schema -> key ∈ fieldnames.
Proof.
  intros Hkey. unfold schema in Hkey. unfold fieldnames.
  repeat (apply elem_of_cons in Hkey as [->|Hkey]; [set_solver|]).
  now apply elem_of_nil in Hkey.
Qed.

Lemma make_record_only_columns (current_time : string) (i n : nat) :
  only_columns (make_record random choose current_time i n).
Proof.
  intros key v Hv. apply schema_in_columns.
  exact (make_record_lookup current_time i n key v Hv).
Qed.

Lemma run_simulation_all (P : json_object -> Prop) :
  (forall current_time i n,
      P (make_record random choose current_time i n)) ->
  Forall P (run_simulation random choose now).
Proof.
  intros HP. rewrite run_simulation_records.
  apply Forall_flat_map. apply Forall_forall. intros t _.
  apply Forall_map. apply Forall_forall. intros i _. apply HP.
Qed.

Lemma run_simulation_length :
  length (run_simulation random choose now) = 100%nat.
Proof.
  rewrite run_simulation_records, length_flat_map.
  erewrite map_ext; [|intros t; rewrite length_map, length_seq; reflexivity].
  reflexivity.
Qed.

(** Whatever the random draws and the clock, a run returns 100 records
    (10 vehicles at each of 10 seconds), each with exactly the nine
    fields of the schema; so none carries a vehicle_density. *)
Theorem run_simulation_has_the_schema :
  length (run_simulation random choose now) = 100%nat
  /\ Forall (fun record : json_object =>
               forall key : string,
                 is_Some (record !! key) <-> key ∈ schema)
       (run_simulation random choose now).
Proof.
  split; [exact run_simulation_length|].
  apply run_simulation_all. intros current_time i n key. split.
  - intros [v Hv]. exact (make_record_lookup current_time i n key v Hv).
  - apply make_record_has.
Qed.

(** The collector's main program turns every run of the client into a
    complete report: the header and one row per record, 101 rows, and no
    exception, whatever the draws. *)
Theorem report_of_a_client_run (float_of_str : string -> option float) :
  exists rows,
    report float_of_str (run_simulation random choose now) = (rows, ret tt)
    /\ length rows = 101%nat.
Proof.
  eexists. split.
  - apply report_written. apply run_simulation_all.
    intros current_time i n. apply make_record_only_columns.
  - cbn [length]. rewrite length_map, run_simulation_length. reflexivity.
Qed.

(** When [random.random()] yields values within [0, 1], every record of a
    run has a transmit power within [10, 30] and a channel-busy ratio
    within [0, 1], rounding included. *)
Theorem run_simulation_values_in_range :
  (forall k, 0 <= random k <= 1) ->
  Forall (fun record : json_object =>
            exists p cbr,
              record !! "power_transmission" = Some (VFloat p)
              /\ 10 <= p <= 30
              /\ record !! "channel_busy_ratio" = Some (VFloat cbr)
              /\ 0 <= cbr <= 1)
    (run_simulation random choose now).
Proof.
  intros Hrandom. apply run_simulation_all. intros current_time i n.
  exists (round2 (uniform 10 30 (random (6 * n + 3)))),
         (round2 (uniform 0 1 (random (6 * n + 5)))).
  unfold make_record, list_to_map. cbn [foldr fst snd].
  split.
  { repeat (rewrite lookup_insert_ne by discriminate).
    now rewrite lookup_insert_eq. }
  split.
  { pose proof (Hrandom (6 * n + 3)%nat) as [H0 H1].
    destruct (round2_between 1000 3000
                (uniform 10 30 (random (6 * n + 3)))) as [Hlo Hhi].
    - unfold uniform. change (inject_Z 1000) with 1000.
      change (inject_Z 3000) with 3000. split; Lqa.lra.
    - change (inject_Z 1000 / 100) with (1000 # 100) in Hlo.
      change (inject_Z 3000 / 100) with (3000 # 100) in Hhi.
      split; Lqa.lra. }
  split.
  { repeat (rewrite lookup_insert_ne by discriminate).
    now rewrite lookup_insert_eq. }
  pose proof (Hrandom (6 * n + 5)%nat) as [H0 H1].
  destruct (round2_between 0 100
              (uniform 0 1 (random (6 * n + 5)))) as [Hlo Hhi].
  - unfold uniform. change (inject_Z 0) with 0.
    change (inject_Z 100) with 100. split; Lqa.lra.
  - change (inject_Z 0 / 100) with (0 # 100) in Hlo.
    change (inject_Z 100 / 100) with (100 # 100) in Hhi.
    split; Lqa.lra.
Qed.

End Sources.

(** A run whose every draw is 1/2. *)
Lemma run_simulation_values_in_range_witness :
  Forall (fun record : json_object =>
            exists p cbr,
              record !! "power_transmission" = Some (VFloat p)
              /\ 10 <= p <= 30
              /\ record !! "channel_busy_ratio" = Some (VFloat cbr)
              /\ 0 <= cbr <= 1)
    (run_simulation (fun _ => 1 # 2) (fun _ => O) (fun _ => "")).
Proof.
  apply (run_simulation_values_in_range
           (fun _ => 1 # 2) (fun _ => O) (fun _ => "")).
  intros k. split; discriminate.
Defined.

End ClientProps.
